(** * gpio-hd44780-driver: a shallow embedding of [hd44780-driver.js]

    The driver talks to an HD44780 character LCD in 4-bit mode through the
    [rpio] GPIO module.  The embedding keeps the structure of the JavaScript
    class: the instance fields live in a store ([self]), every call of
    [rpio.open], [rpio.write] and [rpio.usleep] is appended to a chronological
    log ([io]), and a thrown exception stops the computation and leaves the
    store and the log as they were at the throw.

    Numbers are modelled as integers (plus [NaN]); the 32-bit conversion of the
    bitwise operators is written out.  JavaScript numbers are doubles: sums
    and differences are modelled exactly, which is what the code computes as
    long as the operands and the result are integers of magnitude at most
    2^53.  The theorems in which a free column is added to a row offset say so
    in a hypothesis ([exact_column]). *)

From Stdlib Require Import ZArith List Bool Lia.
Import ListNotations.
Open Scope Z_scope.

(** ** JavaScript numbers and operators *)

Inductive number : Type :=
| NaN
| Int (z : Z).

Coercion Int : Z >-> number.

(** [undefined] converts to [NaN] in arithmetic. *)
Definition ToNumber (v : option Z) : number :=
  match v with
  | Some z => Int z
  | None => NaN
  end.

(** ToInt32: [NaN] goes to 0, an integer wraps to the signed 32-bit range. *)
Definition ToInt32 (n : number) : Z :=
  match n with
  | NaN => 0
  | Int z => (z + 2 ^ 31) mod 2 ^ 32 - 2 ^ 31
  end.

(** [a + b], exact: the double addition of the source gives this sum when
    the operands and the sum have magnitude at most 2^53, and rounds it
    beyond. *)
Definition js_add (a b : number) : number :=
  match a, b with
  | Int x, Int y => Int (x + y)
  | _, _ => NaN
  end.

Definition js_sub (a b : number) : number :=
  match a, b with
  | Int x, Int y => Int (x - y)
  | _, _ => NaN
  end.

(** [a > b]: false as soon as one side is [NaN]. *)
Definition js_gt (a b : number) : bool :=
  match a, b with
  | Int x, Int y => y <? x
  | _, _ => false
  end.

(** [a | b] *)
Definition js_or (a b : number) : Z :=
  ToInt32 (Int (Z.lor (ToInt32 a) (ToInt32 b))).

(** [a & b] *)
Definition js_and (a b : number) : Z :=
  ToInt32 (Int (Z.land (ToInt32 a) (ToInt32 b))).

(** [a >> b]: sign-propagating shift by the low five bits of the count. *)
Definition js_shr (a b : number) : Z :=
  Z.shiftr (ToInt32 a) (ToInt32 b mod 32).

(** A number used as a condition: 0 and [NaN] are falsy. *)
Definition truthy (n : number) : bool :=
  match n with
  | NaN => false
  | Int z => negb (z =? 0)
  end.

(** ** Strings: sequences of UTF-16 code units *)

Definition jsstring := list Z.

Definition is_high_surrogate (c : Z) : bool := (0xD800 <=? c) && (c <=? 0xDBFF).
Definition is_low_surrogate (c : Z) : bool := (0xDC00 <=? c) && (c <=? 0xDFFF).

(** [Array.from(str)]: the string iterator yields one string per code point,
    so a surrogate pair stays together. *)
Fixpoint Array_from (str : jsstring) : list jsstring :=
  match str with
  | [] => []
  | c :: t =>
      match t with
      | d :: t' =>
          if is_high_surrogate c && is_low_surrogate d
          then [c; d] :: Array_from t'
          else [c] :: Array_from t
      | [] => [[c]]
      end
  end.

(** [s.charCodeAt(i)]: the code unit at [i], [NaN] out of range. *)
Definition charCodeAt (s : jsstring) (i : nat) : number :=
  ToNumber (nth_error s i).

(** ['\n'] *)
Definition newline : jsstring := [10].

(** [a === b] on strings. *)
Fixpoint string_eqb (a b : jsstring) : bool :=
  match a, b with
  | [], [] => true
  | x :: a', y :: b' => (x =? y) && string_eqb a' b'
  | _, _ => false
  end.

(** ** Constant tables (lines 3-45 of the source) *)

Module command.
Definition CLEARDISPLAY : Z := 0x01.
Definition HOME : Z := 0x02.
Definition ENTRYMODESET : Z := 0x04.
Definition DISPLAYCONTROL : Z := 0x08.
Definition CURSORSHIFT : Z := 0x10.
Definition FUNCTIONSET : Z := 0x20.
Definition SETCGRAMADDR : Z := 0x40.
Definition SETDDRAMADDR : Z := 0x80.
End command.

Module entryModeFlags.
Definition ENTRYRIGHT : Z := 0x00.
Definition ENTRYLEFT : Z := 0x02.
Definition ENTRYSHIFTINCREMENT : Z := 0x01.
Definition ENTRYSHIFTDECREMENT : Z := 0x00.
End entryModeFlags.

Module controlFlags.
Definition DISPLAYON : Z := 0x04.
Definition DISPLAYOFF : Z := 0x00.
Definition CURSORON : Z := 0x02.
Definition CURSOROFF : Z := 0x00.
Definition BLINKON : Z := 0x01.
Definition BLINKOFF : Z := 0x00.
End controlFlags.

Module moveFlags.
Definition DISPLAYMOVE : Z := 0x08.
Definition CURSORMOVE : Z := 0x00.
Definition MOVERIGHT : Z := 0x04.
Definition MOVELEFT : Z := 0x00.
End moveFlags.

Definition ROWOFFSETS : list Z := [0x00; 0x40; 0x14; 0x54].

Module functionSetFlags.
Definition EIGHTBITMODE : Z := 0x10.
Definition FOURBITMODE : Z := 0x00.
Definition TWOLINE : Z := 0x08.
Definition ONELINE : Z := 0x00.
Definition FIVEBYTENDOTS : Z := 0x04.
Definition FIVEBYEIGHTDOTS : Z := 0x00.
End functionSetFlags.

(** [arr[i]] for a numeric index: [undefined] outside the array. *)
Definition index {A : Type} (arr : list A) (i : number) : option A :=
  match i with
  | NaN => None
  | Int z => if z <? 0 then None else nth_error arr (Z.to_nat z)
  end.

(** The columns for which [col + ROWOFFSETS[r]] is exact in double
    arithmetic: the column, the offset (at most 0x54) and their sum are
    integers of magnitude at most 2^53. *)
Definition exact_column (col : Z) : Prop :=
  - 2 ^ 53 <= col <= 2 ^ 53 - 0x54.

(** [arr[i]] for an array of values that may themselves be [undefined]. *)
Definition array_get {A : Type} (arr : list (option A)) (i : Z) : option A :=
  match index arr (Int i) with
  | Some v => v
  | None => None
  end.

(** ** The instance, the GPIO log and the monad *)

(** A pin identifier as the configuration gives it; [None] is [undefined]. *)
Definition pin := option Z.

(** The fields of [this]; the configuration object has the same fields.
    [None] stands for an absent ([undefined]) field. *)
Record object : Type := mkObject {
  pinRs : pin;
  pinEnable : pin;
  pinsData : option (list pin);
  lcdColumns : option Z;
  lcdRows : option Z
}.

Definition empty_object : object := mkObject None None None None None.

(** Calls that reached the GPIO module. *)
Inductive event : Type :=
| EOpen (p : pin) (mode : Z) (init : Z)
| EWrite (p : pin) (level : Z)
| EUsleep (us : Z).

Record state : Type := mkState {
  self : object;
  io : list event
}.

Inductive error : Type :=
| TypeError
| GpioError (p : pin).

Inductive result (A : Type) : Type :=
| Ok (a : A)
| Throw (e : error).
Arguments Ok {A} a.
Arguments Throw {A} e.

Definition M (A : Type) : Type := state -> result A * state.

Definition ret {A : Type} (a : A) : M A := fun st => (Ok a, st).

Definition bind {A B : Type} (c : M A) (k : A -> M B) : M B :=
  fun st =>
    match c st with
    | (Ok a, st') => k a st'
    | (Throw e, st') => (Throw e, st')
    end.

Definition throw {A : Type} (e : error) : M A := fun st => (Throw e, st).

Notation "x <- c ;; k" := (bind c (fun x => k))
  (at level 61, c at next level, right associativity).
Notation "c ;; k" := (bind c (fun _ => k))
  (at level 61, right associativity).

(** Appending to the GPIO log. *)
Definition log (es : list event) (st : state) : state :=
  mkState (self st) (io st ++ es).

(** Reading [this.f]. *)
Definition field {A : Type} (f : object -> A) : M A :=
  fun st => (Ok (f (self st)), st).

(** Assigning [this.f = v], one setter per field. *)
Definition assign (upd : object -> object) : M unit :=
  fun st => (Ok tt, mkState (upd (self st)) (io st)).

Definition set_pinRs (v : pin) (o : object) : object :=
  mkObject v (pinEnable o) (pinsData o) (lcdColumns o) (lcdRows o).
Definition set_pinEnable (v : pin) (o : object) : object :=
  mkObject (pinRs o) v (pinsData o) (lcdColumns o) (lcdRows o).
Definition set_pinsData (v : option (list pin)) (o : object) : object :=
  mkObject (pinRs o) (pinEnable o) v (lcdColumns o) (lcdRows o).
Definition set_lcdColumns (v : option Z) (o : object) : object :=
  mkObject (pinRs o) (pinEnable o) (pinsData o) v (lcdRows o).
Definition set_lcdRows (v : option Z) (o : object) : object :=
  mkObject (pinRs o) (pinEnable o) (pinsData o) (lcdColumns o) v.

(** [arr.forEach(f)] *)
Fixpoint forEach {A : Type} (arr : list A) (f : A -> M unit) : M unit :=
  match arr with
  | [] => ret tt
  | x :: rest => f x ;; forEach rest f
  end.

(** [arr.forEach(f)] where the callback updates a variable [v] of the
    enclosing function. *)
Fixpoint forEach_var {A V : Type} (arr : list A) (f : A -> V -> M V) (v : V)
  : M V :=
  match arr with
  | [] => ret v
  | x :: rest => v' <- f x v ;; forEach_var rest f v'
  end.

(** [for (i = start; ...; i++) body], run for [count] iterations. *)
Fixpoint for_loop (start : Z) (count : nat) (body : Z -> M unit) : M unit :=
  match count with
  | O => ret tt
  | S n => body start ;; for_loop (start + 1) n body
  end.

(** ** The GPIO collaborator *)

(** Modelled from the spec: the [rpio] module is an external collaborator and
    is not part of the sources.  Section 6 of the specification gives its
    interface: configuring a pin as an output fails when the pin is not valid
    for the platform, while a digital write and a microsecond sleep are issued
    and assumed to succeed (section 7).  The numeric values of its constants
    and the set of pins it accepts are left open. *)
Class Rpio : Type := mkRpio {
  OUTPUT : Z;
  LOW : Z;
  HIGH : Z;
  open_ok : pin -> bool
}.

Section Driver.

Context {rpio : Rpio}.

Definition rpio_open (p : pin) (mode init : Z) : M unit :=
  fun st =>
    if open_ok p then (Ok tt, log [EOpen p mode init] st)
    else (Throw (GpioError p), st).

Definition rpio_write (p : pin) (level : Z) : M unit :=
  fun st => (Ok tt, log [EWrite p level] st).

Definition rpio_usleep (us : Z) : M unit :=
  fun st => (Ok tt, log [EUsleep us] st).

(** ** The class (lines 47-180 of the source) *)

(** [this.pinsData[i]]: a [TypeError] when [pinsData] is [undefined],
    [undefined] when [i] is outside the array. *)
Definition pinsData_at (i : Z) : M pin :=
  a <- field pinsData ;;
  match a with
  | None => throw TypeError
  | Some pins =>
      ret (array_get pins i)
  end.

Definition _pulseEnable : M unit :=
  (p <- field pinEnable ;; rpio_write p LOW) ;;
  rpio_usleep 1 ;;
  (p <- field pinEnable ;; rpio_write p HIGH) ;;
  rpio_usleep 1 ;;
  (p <- field pinEnable ;; rpio_write p LOW) ;;
  rpio_usleep 1.

(** The three last parameters have defaults ([false], 50 and 0), taken
    when the caller leaves them out. *)
Definition _write8Bits (value : number) (registerSelect : option bool)
    (writeWait initWait : option Z) : M unit :=
  let registerSelect := match registerSelect with Some b => b | None => false end in
  let writeWait := match writeWait with Some w => w | None => 50 end in
  let initWait := match initWait with Some w => w | None => 0 end in
  rpio_usleep writeWait ;;
  (if registerSelect
   then p <- field pinRs ;; rpio_write p HIGH
   else p <- field pinRs ;; rpio_write p LOW) ;;
  for_loop 0 4 (fun i =>
    p <- pinsData_at i ;;
    rpio_write p (js_and (js_shr value (js_add i 4)) 1)) ;;
  _pulseEnable ;;
  (if truthy initWait then rpio_usleep initWait else ret tt) ;;
  for_loop 0 4 (fun i =>
    p <- pinsData_at i ;;
    rpio_write p (js_and (js_shr value i) 1)) ;;
  _pulseEnable.

Definition clear : M unit :=
  _write8Bits command.CLEARDISPLAY None None None.

(** The constant [r] of [setCursor], for [this.lcdRows = rows]. *)
Definition clamp_row (rows : option Z) (row : Z) : number :=
  if js_gt row (js_sub (ToNumber rows) 1)
  then js_sub (ToNumber rows) 1
  else Int row.

Definition setCursor (col row : Z) : M unit :=
  rows <- field lcdRows ;;
  let r := clamp_row rows row in
  _write8Bits
    (js_or command.SETDDRAMADDR (js_add col (ToNumber (index ROWOFFSETS r))))
    None None None.

(** The callback of [print]; [row] is the variable of the enclosing call. *)
Definition print_char (char : jsstring) (row : Z) : M Z :=
  if string_eqb char newline
  then
    let row := row + 1 in
    setCursor 0 row ;; ret row
  else
    _write8Bits (charCodeAt char 0) (Some true) None None ;; ret row.

Definition print (str : jsstring) : M unit :=
  let row := 0 in
  forEach_var (Array_from str) print_char row ;; ret tt.

Definition constructor (config : object) : M unit :=
  assign (set_pinRs (pinRs config)) ;;
  assign (set_pinEnable (pinEnable config)) ;;
  assign (set_pinsData (pinsData config)) ;;
  assign (set_lcdColumns (lcdColumns config)) ;;
  assign (set_lcdRows (lcdRows config)) ;;
  (p <- field pinRs ;; rpio_open p OUTPUT LOW) ;;
  (p <- field pinEnable ;; rpio_open p OUTPUT LOW) ;;
  (a <- field pinsData ;;
   match a with
   | None => throw TypeError
   | Some pins => forEach pins (fun p => rpio_open p OUTPUT LOW)
   end) ;;
  _write8Bits 0x33 (Some false) (Some 1) (Some 4100) ;;
  _write8Bits 0x32 (Some false) (Some 1) (Some 100) ;;
  _write8Bits
    (js_or (js_or (js_or command.DISPLAYCONTROL controlFlags.DISPLAYON)
                  controlFlags.CURSOROFF) controlFlags.BLINKOFF)
    None None None ;;
  _write8Bits
    (js_or (js_or (js_or command.FUNCTIONSET functionSetFlags.FOURBITMODE)
                  functionSetFlags.TWOLINE) functionSetFlags.FIVEBYEIGHTDOTS)
    None None None ;;
  _write8Bits
    (js_or (js_or command.ENTRYMODESET entryModeFlags.ENTRYLEFT)
           entryModeFlags.ENTRYSHIFTDECREMENT)
    None None None ;;
  clear.

(** [new Lcd(config)]: the constructor runs on a fresh object. *)
Definition new (config : object) : result unit * state :=
  constructor config (mkState empty_object []).

(** ** Event sequences of the protocol

    The sequences below follow the wording of sections 4.5 and 4.6 of the
    specification; the theorems compare them with what the methods log. *)

(** The level of bit [k] of a number ([NaN] has no bit set). *)
Definition bit_of (value : number) (k : Z) : Z :=
  match value with
  | NaN => 0
  | Int z => Z.b2z (Z.testbit z k)
  end.

(** The value of the low eight bits of a number. *)
Definition low8 (value : number) : Z :=
  match value with
  | NaN => 0
  | Int z => z mod 256
  end.

(** Enable pulse: low, 1 us, high, 1 us, low, 1 us. *)
Definition pulse_events (o : object) : list event :=
  [EWrite (pinEnable o) LOW; EUsleep 1;
   EWrite (pinEnable o) HIGH; EUsleep 1;
   EWrite (pinEnable o) LOW; EUsleep 1].

(** The values a loop variable takes: [count] integers from [start]. *)
Fixpoint zrange (start : Z) (count : nat) : list Z :=
  match count with
  | O => []
  | S n => start :: zrange (start + 1) n
  end.

(** One nibble: data pin [i] carries bit [base + i]. *)
Definition nibble_events (pins : list pin) (value : number) (base : Z)
  : list event :=
  map (fun i => EWrite (array_get pins i) (bit_of value (base + i)))
      [0; 1; 2; 3].

(** The extra sleep between the two halves, when one is asked for. *)
Definition inter_nibble_events (initWait : Z) : list event :=
  if initWait =? 0 then [] else [EUsleep initWait].

(** One 8-bit transfer. *)
Definition transfer_events (o : object) (pins : list pin) (value : number)
    (registerSelect : bool) (writeWait initWait : Z) : list event :=
  [EUsleep writeWait; EWrite (pinRs o) (if registerSelect then HIGH else LOW)]
  ++ nibble_events pins value 4 ++ pulse_events o
  ++ inter_nibble_events initWait
  ++ nibble_events pins value 0 ++ pulse_events o.

(** Step 1 of the construction: every pin becomes an output, initially low. *)
Definition setup_events (o : object) (pins : list pin) : list event :=
  EOpen (pinRs o) OUTPUT LOW :: EOpen (pinEnable o) OUTPUT LOW ::
  map (fun p => EOpen p OUTPUT LOW) pins.

(** The parameters of one transfer: value, register select, settle delay and
    inter-nibble delay. *)
Definition transfer : Type := (Z * bool * Z * Z)%type.

Definition events_of (o : object) (pins : list pin) (t : transfer)
  : list event :=
  let '(value, rs, writeWait, initWait) := t in
  transfer_events o pins value rs writeWait initWait.

(** The transfers of the reset sequence and of the register set-up. *)
Definition init_transfers : list transfer :=
  [ (0x33, false, 1, 4100);
    (0x32, false, 1, 100);
    (Z.lor command.DISPLAYCONTROL
       (Z.lor controlFlags.DISPLAYON
          (Z.lor controlFlags.CURSOROFF controlFlags.BLINKOFF)),
     false, 50, 0);
    (Z.lor command.FUNCTIONSET
       (Z.lor functionSetFlags.FOURBITMODE
          (Z.lor functionSetFlags.TWOLINE functionSetFlags.FIVEBYEIGHTDOTS)),
     false, 50, 0);
    (Z.lor command.ENTRYMODESET
       (Z.lor entryModeFlags.ENTRYLEFT entryModeFlags.ENTRYSHIFTDECREMENT),
     false, 50, 0);
    (command.CLEARDISPLAY, false, 50, 0) ].

Definition init_events (o : object) (pins : list pin) : list event :=
  concat (map (events_of o pins) init_transfers).

(** Every pin of the configuration is accepted by the GPIO module. *)
Definition opens_ok (o : object) (pins : list pin) : bool :=
  open_ok (pinRs o) && open_ok (pinEnable o) && forallb open_ok pins.

Definition is_open (e : event) : bool :=
  match e with
  | EOpen _ _ _ => true
  | _ => false
  end.

Definition is_write (e : event) : bool :=
  match e with
  | EWrite _ _ => true
  | _ => false
  end.

Definition pin_eqb (p q : pin) : bool :=
  match p, q with
  | Some a, Some b => a =? b
  | None, None => true
  | _, _ => false
  end.

(** The enable line is driven high once per latched nibble. *)
Definition rising_edges (o : object) (tr : list event) : nat :=
  length (filter (fun e =>
    match e with
    | EWrite p level => pin_eqb p (pinEnable o) && (level =? HIGH)
    | _ => false
    end) tr).

(** ** [print], line by line

    Section 4.3 of the specification describes [print] by the lines of the
    text: the characters of the first line are written, and each further line
    is preceded by a cursor move to the start of the next row. *)

Fixpoint split_lines (chars : list jsstring) : list (list jsstring) :=
  match chars with
  | [] => [[]]
  | c :: rest =>
      if string_eqb c newline then [] :: split_lines rest
      else
        match split_lines rest with
        | line :: lines => (c :: line) :: lines
        | [] => [[c]]
        end
  end.

Definition write_line (line : list jsstring) : M unit :=
  forEach line (fun c => _write8Bits (charCodeAt c 0) (Some true) None None).

Fixpoint print_next_lines (currentRow : Z) (lines : list (list jsstring))
  : M unit :=
  match lines with
  | [] => ret tt
  | line :: rest =>
      setCursor 0 (currentRow + 1) ;;
      write_line line ;;
      print_next_lines (currentRow + 1) rest
  end.

Definition print_lines (lines : list (list jsstring)) : M unit :=
  match lines with
  | [] => ret tt
  | line :: rest => write_line line ;; print_next_lines 0 rest
  end.

(** A computation that leaves the fields of [this] as they are, also when it
    throws. *)
Definition keeps_self {A : Type} (c : M A) : Prop :=
  forall st : state, self (snd (c st)) = self st.

(** The number of newlines met so far is the row counter of [print]. *)
Definition count_newlines (chars : list jsstring) : Z :=
  Z.of_nat (length (filter (fun c => string_eqb c newline) chars)).

(** ** Measures and relations used by the further properties *)

(** Total sleeping time of a log, in microseconds. *)
Definition sleep_total (tr : list event) : Z :=
  fold_right (fun e acc => match e with EUsleep us => us + acc | _ => acc end)
             0 tr.

(** Number of digital writes of a log. *)
Definition write_count (tr : list event) : nat :=
  length (filter is_write tr).

(** [print] on a display of [rows] rows, line by line: each further line is
    preceded by the instruction that sets the address of column 0 of its
    row, which is the smaller of the line number and the last row. *)
Fixpoint print_rows (rows currentRow : Z) (lines : list (list jsstring))
  : M unit :=
  match lines with
  | [] => ret tt
  | line :: rest =>
      _write8Bits
        (js_or command.SETDDRAMADDR
           (nth (Z.to_nat (Z.min (currentRow + 1) (rows - 1))) ROWOFFSETS 0))
        (Some false) (Some 50) (Some 0) ;;
      write_line line ;;
      print_rows rows (currentRow + 1) rest
  end.

(** Two instances that differ at most in their column count. *)
Definition same_but_columns (o o' : object) : Prop :=
  pinRs o = pinRs o' /\ pinEnable o = pinEnable o'
  /\ pinsData o = pinsData o' /\ lcdRows o = lcdRows o'.

(** A computation whose result and log do not depend on the column count. *)
Definition ignores_columns {A : Type} (c : M A) : Prop :=
  forall st st' : state,
    same_but_columns (self st) (self st') -> io st = io st' ->
    fst (c st) = fst (c st')
    /\ io (snd (c st)) = io (snd (c st'))
    /\ same_but_columns (self (snd (c st))) (self (snd (c st'))).

(** ** The display side of the bus

    What the controller sees of a log: the levels of its six lines (a pin
    drives every line it is wired to; a level other than 0 is high) and, at
    each falling edge of the enable line, the nibble it latches from the data
    lines together with the register selected at that moment (section 4.6 of
    the specification). *)

Record bus : Type := mkBus {
  rs_line : Z;
  en_line : Z;
  d4_line : Z;
  d5_line : Z;
  d6_line : Z;
  d7_line : Z;
  latched : list (bool * Z)
}.

Definition is_high (level : Z) : bool := negb (level =? 0).

(** [this.pinsData[i]], where there is an array. *)
Definition data_pin (o : object) (i : Z) : pin :=
  match pinsData o with
  | Some pins => array_get pins i
  | None => None
  end.

(** The level of the line wired to [q] once [p] is driven to [level]. *)
Definition wire (p q : pin) (level old : Z) : Z :=
  if pin_eqb p q then level else old.

Definition bus_drive (o : object) (b : bus) (p : pin) (level : Z) : bus :=
  mkBus (wire p (pinRs o) level (rs_line b))
        (wire p (pinEnable o) level (en_line b))
        (wire p (data_pin o 0) level (d4_line b))
        (wire p (data_pin o 1) level (d5_line b))
        (wire p (data_pin o 2) level (d6_line b))
        (wire p (data_pin o 3) level (d7_line b))
        (latched b).

(** The nibble on the data lines, DB4 being its lowest bit. *)
Definition bus_nibble (b : bus) : Z :=
  Z.b2z (is_high (d4_line b)) + 2 * Z.b2z (is_high (d5_line b))
  + 4 * Z.b2z (is_high (d6_line b)) + 8 * Z.b2z (is_high (d7_line b)).

Definition bus_latch (b : bus) : bus :=
  mkBus (rs_line b) (en_line b) (d4_line b) (d5_line b) (d6_line b)
        (d7_line b)
        (latched b ++ [(is_high (rs_line b), bus_nibble b)]).

(** Driving a pin; the nibble is latched when this makes the enable line
    fall. *)
Definition bus_write (o : object) (b : bus) (p : pin) (level : Z) : bus :=
  let b' := bus_drive o b p level in
  if is_high (en_line b) && negb (is_high (en_line b'))
  then bus_latch b'
  else b'.

(** Opening a pin as an output drives it to its initial level. *)
Definition bus_step (o : object) (b : bus) (e : event) : bus :=
  match e with
  | EOpen p _ init => bus_write o b p init
  | EWrite p level => bus_write o b p level
  | EUsleep _ => b
  end.

Definition bus_run (o : object) (tr : list event) (b : bus) : bus :=
  fold_left (bus_step o) tr b.

(** In 4-bit mode two nibbles make a byte, the high one first. *)
Fixpoint bytes_of (nibbles : list (bool * Z)) : list (bool * Z) :=
  match nibbles with
  | (rs, high) :: (_, low) :: rest => (rs, 16 * high + low) :: bytes_of rest
  | _ => []
  end.

(** The pins of the six lines. *)
Definition wires (o : object) : list pin :=
  [pinRs o; pinEnable o; data_pin o 0; data_pin o 1; data_pin o 2;
   data_pin o 3].

Fixpoint distinct (pins : list pin) : bool :=
  match pins with
  | [] => true
  | p :: rest => negb (existsb (pin_eqb p) rest) && distinct rest
  end.

Definition nibbles_of (value : number) (rs : bool) : list (bool * Z) :=
  [(rs, low8 value / 16); (rs, low8 value mod 16)].

(** The values that [print] transfers, with their register: the code of a
    character for the data register, the cursor instruction of the next row
    for a newline. *)
Fixpoint print_values (rows : option Z) (chars : list jsstring) (row : Z)
  : list (number * bool) :=
  match chars with
  | [] => []
  | char :: rest =>
      if string_eqb char newline
      then (Int (js_or command.SETDDRAMADDR
                   (js_add 0
                      (ToNumber
                         (index ROWOFFSETS (clamp_row rows (row + 1)))))),
            false)
           :: print_values rows rest (row + 1)
      else (charCodeAt char 0, true) :: print_values rows rest row
  end.

End Driver.

(** ** A concrete board, for examples

    Physical pins 1 to 40 can be opened; the constants are those of a
    Raspberry Pi build of the GPIO module. *)
Definition board : Rpio :=
  mkRpio 1 0 1
    (fun p => match p with
              | Some n => (1 <=? n) && (n <=? 40)
              | None => false
              end).

(** The configuration of the README. *)
Definition readme_config : object :=
  mkObject (Some 18) (Some 22) (Some [Some 11; Some 12; Some 15; Some 16])
           (Some 16) (Some 2).

Definition readme_pins : list pin := [Some 11; Some 12; Some 15; Some 16].

(** The state of a new object, and of the README's display once built. *)
Definition fresh : state := mkState empty_object [].
Definition ready : state := mkState readme_config [].

(** Configurations that the specification calls malformed. *)
Definition no_geometry_config : object :=
  mkObject (Some 18) (Some 22) (Some readme_pins) (Some 0) (Some (-1)).

Definition five_pins_config : object :=
  mkObject (Some 18) (Some 22)
           (Some [Some 11; Some 12; Some 15; Some 16; Some 13])
           (Some 16) (Some 2).

(** Pin 99 does not exist on the board. *)
Definition bad_pin_config : object :=
  mkObject (Some 99) (Some 22) (Some readme_pins) (Some 16) (Some 2).

(** The second data pin does not exist on the board. *)
Definition bad_data_pin_config : object :=
  mkObject (Some 18) (Some 22) (Some [Some 11; Some 99; Some 15; Some 16])
           (Some 16) (Some 2).

(** No data pins were given. *)
Definition no_data_pins_config : object :=
  mkObject (Some 18) (Some 22) None (Some 16) (Some 2).

(** Displays of four rows, and of an unknown number of rows. *)
Definition ready_four_rows : state :=
  mkState (mkObject (Some 18) (Some 22) (Some readme_pins) (Some 20) (Some 4))
          [].

Definition ready_no_rows : state :=
  mkState (mkObject (Some 18) (Some 22) (Some readme_pins) (Some 16) None) [].

(** A bus with every line low and nothing latched yet. *)
Definition idle_bus : bus := mkBus 0 0 0 0 0 0 [].

(** * Properties *)

Section Properties.

Context {rpio : Rpio}.

(** ** The log and the monad *)

Lemma log_log (a b : list event) (st : state) :
  log b (log a st) = log (a ++ b) st.
Proof.
  unfold log; cbn. now rewrite app_assoc.
Qed.

Lemma log_nil (st : state) : log [] st = st.
Proof.
  destruct st as [o tr]. unfold log; cbn. now rewrite app_nil_r.
Qed.

Lemma self_log (es : list event) (st : state) : self (log es st) = self st.
Proof. reflexivity. Qed.

Lemma bind_ok {A B : Type} (c : M A) (k : A -> M B) st a st' :
  c st = (Ok a, st') -> bind c k st = k a st'.
Proof.
  intros H. unfold bind. now rewrite H.
Qed.

Lemma bind_throw {A B : Type} (c : M A) (k : A -> M B) st e st' :
  c st = (Throw e, st') -> bind c k st = (Throw e, st').
Proof.
  intros H. unfold bind. now rewrite H.
Qed.

Lemma bind_assoc {A B C : Type} (c : M A) (k : A -> M B) (h : B -> M C) st :
  bind (bind c k) h st = bind c (fun a => bind (k a) h) st.
Proof.
  unfold bind. destruct (c st) as [[a|e] st']; reflexivity.
Qed.

(** ** Bits of a 32-bit conversion *)

Lemma ToInt32_small (z : Z) :
  - 2 ^ 31 <= z < 2 ^ 31 -> ToInt32 (Int z) = z.
Proof.
  intros H. unfold ToInt32.
  rewrite Z.mod_small by lia. lia.
Qed.

Lemma ToInt32_testbit (z k : Z) :
  0 <= k < 32 -> Z.testbit (ToInt32 (Int z)) k = Z.testbit z k.
Proof.
  intros Hk.
  rewrite <- (Z.mod_pow2_bits_low (ToInt32 (Int z)) 32 k) by lia.
  rewrite <- (Z.mod_pow2_bits_low z 32 k) by lia.
  f_equal. unfold ToInt32.
  rewrite Zminus_mod_idemp_l. f_equal. lia.
Qed.

Lemma land_1 (y : Z) : Z.land y 1 = Z.b2z (Z.testbit y 0).
Proof.
  change 1 with (Z.ones 1) at 1.
  rewrite Z.land_ones by lia.
  rewrite Z.bit0_mod. reflexivity.
Qed.

Lemma shift_mask (value : number) (k : Z) :
  0 <= k < 32 -> js_and (js_shr value k) 1 = bit_of value k.
Proof.
  intros Hk. unfold js_and, js_shr.
  rewrite (ToInt32_small k) by lia.
  rewrite Z.mod_small by lia.
  rewrite (ToInt32_small 1) by lia.
  rewrite land_1, ToInt32_testbit by lia.
  rewrite Z.shiftr_spec by lia. rewrite Z.add_0_l.
  destruct value as [|z]; cbn [bit_of].
  - change (ToInt32 NaN) with 0. rewrite Z.testbit_0_l. reflexivity.
  - rewrite ToInt32_testbit by lia.
    destruct (Z.testbit z k); reflexivity.
Qed.

(** Only the low eight bits of the value reach the data pins. *)
Lemma bit_of_low8 (value : number) (k : Z) :
  0 <= k < 8 -> bit_of (Int (low8 value)) k = bit_of value k.
Proof.
  intros Hk. destruct value as [|z]; cbn [bit_of low8].
  - now rewrite Z.testbit_0_l.
  - change 256 with (2 ^ 8). now rewrite Z.mod_pow2_bits_low by lia.
Qed.

(** ** What the protocol primitives log *)

Lemma pulseEnable_run (st : state) :
  _pulseEnable st = (Ok tt, log (pulse_events (self st)) st).
Proof.
  unfold _pulseEnable, pulse_events, bind, field, rpio_write, rpio_usleep.
  cbn [self log]. rewrite !log_log. reflexivity.
Qed.

Lemma pinsData_at_run (i : Z) (pins : list pin) (st : state) :
  pinsData (self st) = Some pins ->
  pinsData_at i st = (Ok (array_get pins i), st).
Proof.
  intros Hp. unfold pinsData_at, bind, field. rewrite Hp. reflexivity.
Qed.

Lemma data_loop_run (level : Z -> Z) (pins : list pin) (count : nat) :
  forall (start : Z) (st : state),
  pinsData (self st) = Some pins ->
  for_loop start count
    (fun i => p <- pinsData_at i ;; rpio_write p (level i)) st
  = (Ok tt,
     log (map (fun i => EWrite (array_get pins i) (level i))
              (zrange start count)) st).
Proof.
  induction count as [|n IH]; intros start st Hp; cbn [for_loop zrange map].
  - now rewrite log_nil.
  - erewrite bind_ok.
    2:{ erewrite bind_ok by (apply pinsData_at_run; exact Hp). reflexivity. }
    rewrite IH by exact Hp. now rewrite log_log.
Qed.

Lemma rs_write_run (b : bool) (st : state) :
  (if b
   then p <- field pinRs ;; rpio_write p HIGH
   else p <- field pinRs ;; rpio_write p LOW) st
  = (Ok tt, log [EWrite (pinRs (self st)) (if b then HIGH else LOW)] st).
Proof. destruct b; reflexivity. Qed.

Lemma init_wait_run (d : Z) (st : state) :
  (if truthy d then rpio_usleep d else ret tt) st
  = (Ok tt, log (inter_nibble_events d) st).
Proof.
  unfold inter_nibble_events, truthy.
  destruct (d =? 0); cbn [negb]; [now rewrite log_nil | reflexivity].
Qed.

Lemma write8Bits_run (value : number) (rs : option bool) (ww iw : option Z)
    (pins : list pin) (st : state) :
  pinsData (self st) = Some pins ->
  _write8Bits value rs ww iw st
  = (Ok tt,
     log (transfer_events (self st) pins value
            (match rs with Some b => b | None => false end)
            (match ww with Some w => w | None => 50 end)
            (match iw with Some w => w | None => 0 end)) st).
Proof.
  intros Hp. unfold _write8Bits.
  set (b := match rs with Some b => b | None => false end).
  set (w := match ww with Some w => w | None => 50 end).
  set (d := match iw with Some w => w | None => 0 end).
  rewrite (bind_ok _ _ st tt (log [EUsleep w] st) eq_refl).
  rewrite (bind_ok _ _ _ tt _ (rs_write_run b _)).
  assert (Hp' : forall es, pinsData (self (log es st)) = Some pins)
    by (intro; exact Hp).
  rewrite !log_log.
  rewrite (bind_ok _ _ _ tt _
             (data_loop_run (fun i => js_and (js_shr value (js_add i 4)) 1)
                pins 4 0 _ (Hp' _))).
  rewrite (bind_ok _ _ _ tt _ (pulseEnable_run _)).
  rewrite (bind_ok _ _ _ tt _ (init_wait_run d _)).
  rewrite !log_log.
  rewrite (bind_ok _ _ _ tt _
             (data_loop_run (fun i => js_and (js_shr value i) 1)
                pins 4 0 _ (Hp' _))).
  rewrite pulseEnable_run. rewrite !log_log, !self_log.
  unfold transfer_events, nibble_events.
  cbn [map zrange js_add Z.add Pos.add Pos.succ].
  rewrite !shift_mask by lia.
  rewrite <- !app_assoc. reflexivity.
Qed.

Lemma clear_run (pins : list pin) (st : state) :
  pinsData (self st) = Some pins ->
  clear st
  = (Ok tt,
     log (transfer_events (self st) pins command.CLEARDISPLAY false 50 0) st).
Proof.
  intros Hp. unfold clear. now rewrite (write8Bits_run _ _ _ _ pins st Hp).
Qed.

Lemma setCursor_unfold (col row : Z) (st : state) :
  setCursor col row st
  = _write8Bits
      (js_or command.SETDDRAMADDR
         (js_add col
            (ToNumber (index ROWOFFSETS (clamp_row (lcdRows (self st)) row)))))
      None None None st.
Proof. reflexivity. Qed.

Lemma setCursor_run (col row : Z) (pins : list pin) (st : state) :
  pinsData (self st) = Some pins ->
  setCursor col row st
  = (Ok tt,
     log (transfer_events (self st) pins
            (js_or command.SETDDRAMADDR
               (js_add col
                  (ToNumber
                     (index ROWOFFSETS (clamp_row (lcdRows (self st)) row)))))
            false 50 0) st).
Proof.
  intros Hp. rewrite setCursor_unfold.
  now rewrite (write8Bits_run _ _ _ _ pins st Hp).
Qed.

(** ** The fields of [this] are read, never assigned, after construction *)

Lemma keeps_ret {A : Type} (a : A) : keeps_self (ret a).
Proof. intros st; reflexivity. Qed.

Lemma keeps_throw {A : Type} (e : error) : keeps_self (@throw A e).
Proof. intros st; reflexivity. Qed.

Lemma keeps_field {A : Type} (f : object -> A) : keeps_self (field f).
Proof. intros st; reflexivity. Qed.

Lemma keeps_write (p : pin) (level : Z) : keeps_self (rpio_write p level).
Proof. intros st; reflexivity. Qed.

Lemma keeps_usleep (us : Z) : keeps_self (rpio_usleep us).
Proof. intros st; reflexivity. Qed.

Lemma keeps_bind {A B : Type} (c : M A) (k : A -> M B) :
  keeps_self c -> (forall a, keeps_self (k a)) -> keeps_self (bind c k).
Proof.
  intros Hc Hk st. unfold bind.
  specialize (Hc st). destruct (c st) as [[a|e] st']; cbn [snd] in *.
  - now rewrite Hk.
  - exact Hc.
Qed.

Lemma keeps_if {A : Type} (b : bool) (c c' : M A) :
  keeps_self c -> keeps_self c' -> keeps_self (if b then c else c').
Proof. now destruct b. Qed.

Lemma keeps_for_loop (body : Z -> M unit) (count : nat) :
  (forall i, keeps_self (body i)) ->
  forall start, keeps_self (for_loop start count body).
Proof.
  intros Hb. induction count as [|n IH]; intros start; cbn [for_loop].
  - apply keeps_ret.
  - apply keeps_bind; [apply Hb | intros _; apply IH].
Qed.

Lemma keeps_forEach_var {A V : Type} (f : A -> V -> M V) (arr : list A) :
  (forall x v, keeps_self (f x v)) ->
  forall v, keeps_self (forEach_var arr f v).
Proof.
  intros Hf. induction arr as [|x rest IH]; intros v; cbn [forEach_var].
  - apply keeps_ret.
  - apply keeps_bind; [apply Hf | exact IH].
Qed.

Create HintDb frame.
#[local] Hint Resolve keeps_ret keeps_throw keeps_field keeps_write
  keeps_usleep keeps_if : frame.

Ltac frame :=
  repeat first
    [ apply keeps_bind
    | apply keeps_for_loop
    | apply keeps_forEach_var
    | intro ];
  auto with frame.

Lemma keeps_pinsData_at (i : Z) : keeps_self (pinsData_at i).
Proof.
  unfold pinsData_at. apply keeps_bind; [apply keeps_field|].
  intros [pins|]; auto with frame.
Qed.

Lemma keeps_pulseEnable : keeps_self _pulseEnable.
Proof. unfold _pulseEnable. frame. Qed.

#[local] Hint Resolve keeps_pinsData_at keeps_pulseEnable : frame.

Lemma keeps_write8Bits value rs ww iw : keeps_self (_write8Bits value rs ww iw).
Proof.
  unfold _write8Bits.
  apply keeps_bind; [auto with frame | intros _].
  apply keeps_bind.
  { apply keeps_if; apply keeps_bind; auto with frame. }
  intros _. apply keeps_bind.
  { apply keeps_for_loop. intros i. apply keeps_bind; auto with frame. }
  intros _. apply keeps_bind; [auto with frame | intros _].
  apply keeps_bind; [auto with frame | intros _].
  apply keeps_bind; [| auto with frame].
  apply keeps_for_loop. intros i. apply keeps_bind; auto with frame.
Qed.

#[local] Hint Resolve keeps_write8Bits : frame.

Lemma keeps_clear : keeps_self clear.
Proof. unfold clear. auto with frame. Qed.

Lemma keeps_setCursor (col row : Z) : keeps_self (setCursor col row).
Proof.
  unfold setCursor. apply keeps_bind; [auto with frame|].
  intros rows. cbv zeta. auto with frame.
Qed.

#[local] Hint Resolve keeps_clear keeps_setCursor : frame.

Lemma keeps_print_char (char : jsstring) (row : Z) :
  keeps_self (print_char char row).
Proof.
  unfold print_char. apply keeps_if; cbv zeta; apply keeps_bind; auto with frame.
Qed.

Lemma keeps_print (str : jsstring) : keeps_self (print str).
Proof.
  unfold print. cbv zeta. apply keeps_bind; [| auto with frame].
  apply keeps_forEach_var. intros; apply keeps_print_char.
Qed.

(** ** Construction *)

Lemma keeps_open (p : pin) (mode init : Z) : keeps_self (rpio_open p mode init).
Proof. intros st. unfold rpio_open. now destruct (open_ok p). Qed.

Lemma keeps_forEach {A : Type} (f : A -> M unit) (arr : list A) :
  (forall x, keeps_self (f x)) -> keeps_self (forEach arr f).
Proof.
  intros Hf. induction arr as [|x rest IH]; cbn [forEach].
  - apply keeps_ret.
  - apply keeps_bind; [apply Hf | intros _; exact IH].
Qed.

Lemma open_loop_ok (pins : list pin) :
  forall st : state,
  forallb open_ok pins = true ->
  forEach pins (fun p => rpio_open p OUTPUT LOW) st
  = (Ok tt, log (map (fun p => EOpen p OUTPUT LOW) pins) st).
Proof.
  induction pins as [|p rest IH]; intros st H; cbn [forEach map].
  - now rewrite log_nil.
  - cbn [forallb] in H. apply andb_true_iff in H as [Hp Hrest].
    unfold bind at 1. unfold rpio_open at 1. rewrite Hp.
    rewrite IH by exact Hrest. now rewrite log_log.
Qed.

Lemma open_loop_fail (pins : list pin) :
  forall st : state,
  forallb open_ok pins = false ->
  exists e tr,
    forEach pins (fun p => rpio_open p OUTPUT LOW) st = (Throw e, log tr st)
    /\ forallb is_open tr = true.
Proof.
  induction pins as [|p rest IH]; intros st H; cbn [forEach forallb] in *.
  - discriminate.
  - unfold bind at 1. unfold rpio_open at 1.
    destruct (open_ok p) eqn:Hp; cbn [andb] in H.
    + destruct (IH (log [EOpen p OUTPUT LOW] st) H) as (e & tr & Hrun & Htr).
      exists e, (EOpen p OUTPUT LOW :: tr). rewrite Hrun, log_log.
      split; [reflexivity | exact Htr].
    + exists (GpioError p), []. now rewrite log_nil.
Qed.

Lemma display_control_value :
  js_or (js_or (js_or command.DISPLAYCONTROL controlFlags.DISPLAYON)
               controlFlags.CURSOROFF) controlFlags.BLINKOFF = 0x0C.
Proof. vm_compute. reflexivity. Qed.

Lemma function_set_value :
  js_or (js_or (js_or command.FUNCTIONSET functionSetFlags.FOURBITMODE)
               functionSetFlags.TWOLINE) functionSetFlags.FIVEBYEIGHTDOTS
  = 0x28.
Proof. vm_compute. reflexivity. Qed.

Lemma entry_mode_value :
  js_or (js_or command.ENTRYMODESET entryModeFlags.ENTRYLEFT)
        entryModeFlags.ENTRYSHIFTDECREMENT = 0x06.
Proof. vm_compute. reflexivity. Qed.

Lemma bind_assign {B : Type} (upd : object -> object) (k : unit -> M B) st :
  bind (assign upd) k st = k tt (mkState (upd (self st)) (io st)).
Proof. reflexivity. Qed.

(** The five assignments copy the configuration into [this]. *)
Lemma assigned (config o : object) :
  set_lcdRows (lcdRows config)
    (set_lcdColumns (lcdColumns config)
       (set_pinsData (pinsData config)
          (set_pinEnable (pinEnable config)
             (set_pinRs (pinRs config) o)))) = config.
Proof. now destruct config. Qed.

Lemma constructor_self (config : object) (st : state) :
  self (snd (constructor config st)) = config.
Proof.
  unfold constructor.
  rewrite !bind_assign.
  cbn [self io]. rewrite assigned.
  match goal with
  | |- self (snd (?c ?s)) = _ =>
      assert (K : keeps_self c); [| exact (K s)]
  end.
  apply keeps_bind.
  { apply keeps_bind; [apply keeps_field | intro; apply keeps_open]. }
  intros _. apply keeps_bind.
  { apply keeps_bind; [apply keeps_field | intro; apply keeps_open]. }
  intros _. apply keeps_bind.
  { apply keeps_bind; [apply keeps_field |].
    intros [pins|]; [| apply keeps_throw].
    apply keeps_forEach. intro; apply keeps_open. }
  intros _. repeat (apply keeps_bind; [apply keeps_write8Bits | intros _]).
  apply keeps_clear.
Qed.

Lemma constructor_ok (config : object) (pins : list pin) (st : state) :
  pinsData config = Some pins ->
  opens_ok config pins = true ->
  constructor config st
  = (Ok tt,
     mkState config
       (io st ++ setup_events config pins ++ init_events config pins)).
Proof.
  intros Hp Hok. unfold opens_ok in Hok.
  apply andb_true_iff in Hok as [Hok Hdata].
  apply andb_true_iff in Hok as [Hrs Hen].
  assert (W : forall v rs ww iw tr,
             _write8Bits v rs ww iw (mkState config tr)
             = (Ok tt,
                mkState config
                  (tr ++ transfer_events config pins v
                           (match rs with Some b => b | None => false end)
                           (match ww with Some w => w | None => 50 end)
                           (match iw with Some w => w | None => 0 end)))).
  { intros. now rewrite (write8Bits_run _ _ _ _ pins (mkState config tr) Hp). }
  unfold constructor.
  rewrite !bind_assign.
  cbn [self io]. rewrite assigned.
  rewrite (bind_ok _ _ _ tt
             (mkState config (io st ++ [EOpen (pinRs config) OUTPUT LOW]))).
  2:{ unfold bind, field, rpio_open. cbn [self]. now rewrite Hrs. }
  rewrite (bind_ok _ _ _ tt
             (mkState config
                ((io st ++ [EOpen (pinRs config) OUTPUT LOW])
                 ++ [EOpen (pinEnable config) OUTPUT LOW]))).
  2:{ unfold bind, field, rpio_open. cbn [self]. now rewrite Hen. }
  rewrite (bind_ok _ _ _ tt
             (mkState config
                (((io st ++ [EOpen (pinRs config) OUTPUT LOW])
                  ++ [EOpen (pinEnable config) OUTPUT LOW])
                 ++ map (fun p => EOpen p OUTPUT LOW) pins))).
  2:{ unfold bind at 1. unfold field at 1. cbn [self]. rewrite Hp.
      now rewrite (open_loop_ok pins _ Hdata). }
  rewrite display_control_value, function_set_value, entry_mode_value.
  do 5 rewrite (bind_ok _ _ _ tt _ (W _ _ _ _ _)).
  unfold clear. rewrite W.
  f_equal. f_equal.
  unfold setup_events, init_events, init_transfers.
  cbn [map concat events_of].
  rewrite <- !app_assoc. cbn [app]. rewrite app_nil_r.
  reflexivity.
Qed.

Lemma constructor_fail (config : object) (st : state) :
  (forall pins, pinsData config = Some pins -> opens_ok config pins = false) ->
  exists e tr,
    constructor config st = (Throw e, mkState config (io st ++ tr))
    /\ forallb is_open tr = true.
Proof.
  intros Hbad. unfold constructor.
  rewrite !bind_assign.
  cbn [self io]. rewrite assigned.
  destruct (open_ok (pinRs config)) eqn:Hrs.
  2:{ exists (GpioError (pinRs config)), [].
      rewrite (bind_throw _ _ _ (GpioError (pinRs config))
                 (mkState config (io st))).
      - now rewrite app_nil_r.
      - unfold bind, field, rpio_open. cbn [self]. now rewrite Hrs. }
  rewrite (bind_ok _ _ _ tt
             (mkState config (io st ++ [EOpen (pinRs config) OUTPUT LOW]))).
  2:{ unfold bind, field, rpio_open. cbn [self]. now rewrite Hrs. }
  destruct (open_ok (pinEnable config)) eqn:Hen.
  2:{ exists (GpioError (pinEnable config)), [EOpen (pinRs config) OUTPUT LOW].
      rewrite (bind_throw _ _ _ (GpioError (pinEnable config))
                 (mkState config (io st ++ [EOpen (pinRs config) OUTPUT LOW]))).
      - split; reflexivity.
      - unfold bind, field, rpio_open. cbn [self]. now rewrite Hen. }
  rewrite (bind_ok _ _ _ tt
             (mkState config
                ((io st ++ [EOpen (pinRs config) OUTPUT LOW])
                 ++ [EOpen (pinEnable config) OUTPUT LOW]))).
  2:{ unfold bind, field, rpio_open. cbn [self]. now rewrite Hen. }
  destruct (pinsData config) as [pins|] eqn:Hp.
  - specialize (Hbad pins eq_refl). unfold opens_ok in Hbad.
    rewrite Hrs, Hen in Hbad. cbn [andb] in Hbad.
    destruct (open_loop_fail pins
                (mkState config
                   ((io st ++ [EOpen (pinRs config) OUTPUT LOW])
                    ++ [EOpen (pinEnable config) OUTPUT LOW])) Hbad)
      as (e & tr & Hrun & Htr).
    exists e, (EOpen (pinRs config) OUTPUT LOW
               :: EOpen (pinEnable config) OUTPUT LOW :: tr).
    erewrite bind_throw.
    2:{ unfold bind at 1. unfold field at 1. cbn [self]. rewrite Hp.
        exact Hrun. }
    split; [| exact Htr].
    unfold log; cbn [self io]. now rewrite <- !app_assoc.
  - exists TypeError,
      [EOpen (pinRs config) OUTPUT LOW; EOpen (pinEnable config) OUTPUT LOW].
    erewrite bind_throw.
    2:{ unfold bind at 1. unfold field at 1. cbn [self]. rewrite Hp.
        reflexivity. }
    split; [| reflexivity]. now rewrite <- !app_assoc.
Qed.

(** ** [print] *)

Lemma bind_ext {A B : Type} (c : M A) (k k' : A -> M B) st :
  (forall a st', k a st' = k' a st') -> bind c k st = bind c k' st.
Proof.
  intros H. unfold bind. destruct (c st) as [[a|e] st']; [apply H | reflexivity].
Qed.

Lemma string_eqb_eq (a b : jsstring) : string_eqb a b = true <-> a = b.
Proof.
  revert b. induction a as [|x a IH]; intros [|y b]; cbn [string_eqb];
    try (split; [discriminate | congruence]).
  - split; reflexivity.
  - rewrite andb_true_iff, Z.eqb_eq, IH. split.
    + intros [-> ->]; reflexivity.
    + intros H; injection H; auto.
Qed.

Lemma split_lines_cons (chars : list jsstring) :
  exists line lines, split_lines chars = line :: lines.
Proof.
  destruct chars as [|c rest]; cbn [split_lines]; [now eauto|].
  destruct (string_eqb c newline); [now eauto|].
  destruct (split_lines rest); eauto.
Qed.

Lemma count_newlines_cons (c : jsstring) (rest : list jsstring) :
  count_newlines (c :: rest)
  = (if string_eqb c newline then 1 else 0) + count_newlines rest.
Proof.
  unfold count_newlines. cbn [filter].
  destruct (string_eqb c newline); cbn [length]; lia.
Qed.

Lemma forEach_var_app {A V : Type} (f : A -> V -> M V) (a b : list A) :
  forall v st,
  forEach_var (a ++ b) f v st
  = bind (forEach_var a f v) (fun v' => forEach_var b f v') st.
Proof.
  induction a as [|x a IH]; intros v st; cbn [app forEach_var].
  - reflexivity.
  - rewrite bind_assoc. apply bind_ext. intros v' st'. apply IH.
Qed.

Lemma forEach_var_app_bind {A V B : Type} (f : A -> V -> M V) (a b : list A)
    (k : V -> M B) (v : V) (st : state) :
  bind (forEach_var (a ++ b) f v) k st
  = bind (forEach_var a f v) (fun v' => bind (forEach_var b f v') k) st.
Proof.
  rewrite <- bind_assoc.
  unfold bind at 1. rewrite forEach_var_app. reflexivity.
Qed.

Lemma print_char_run (char : jsstring) (row : Z) (pins : list pin) st :
  pinsData (self st) = Some pins ->
  print_char char row st
  = if string_eqb char newline
    then (Ok (row + 1),
          log (transfer_events (self st) pins
                 (js_or command.SETDDRAMADDR
                    (js_add 0
                       (ToNumber
                          (index ROWOFFSETS
                             (clamp_row (lcdRows (self st)) (row + 1))))))
                 false 50 0) st)
    else (Ok row,
          log (transfer_events (self st) pins (charCodeAt char 0) true 50 0)
              st).
Proof.
  intros Hp. unfold print_char.
  destruct (string_eqb char newline); cbv zeta.
  - now rewrite (bind_ok _ _ _ tt _ (setCursor_run 0 (row + 1) pins st Hp)).
  - now rewrite (bind_ok _ _ _ tt _ (write8Bits_run _ _ _ _ pins st Hp)).
Qed.

(** With a data-pin array in place, [print] runs to its end, and its row
    counter has counted the newlines. *)
Lemma print_loop_run (pins : list pin) (chars : list jsstring) :
  forall (row : Z) (st : state),
  pinsData (self st) = Some pins ->
  exists evs,
    forEach_var chars print_char row st
    = (Ok (row + count_newlines chars), log evs st).
Proof.
  induction chars as [|c rest IH]; intros row st Hp; cbn [forEach_var].
  - exists []. rewrite log_nil. unfold count_newlines; cbn.
    now rewrite Z.add_0_r.
  - rewrite count_newlines_cons.
    pose proof (print_char_run c row pins st Hp) as Hc.
    destruct (string_eqb c newline).
    + rewrite (bind_ok _ _ _ _ _ Hc).
      destruct (IH (row + 1) (log
         (transfer_events (self st) pins
            (js_or command.SETDDRAMADDR
               (js_add 0
                  (ToNumber
                     (index ROWOFFSETS
                        (clamp_row (lcdRows (self st)) (row + 1))))))
            false 50 0) st) Hp) as [evs Hrun].
      rewrite Hrun, log_log, Z.add_assoc. eauto.
    + rewrite (bind_ok _ _ _ _ _ Hc).
      destruct (IH row (log
         (transfer_events (self st) pins (charCodeAt c 0) true 50 0) st) Hp)
        as [evs Hrun].
      rewrite Hrun, log_log, Z.add_0_l. eauto.
Qed.

Lemma print_loop_lines (chars : list jsstring) :
  forall (row : Z) (st : state),
  bind (forEach_var chars print_char row) (fun _ => ret tt) st
  = match split_lines chars with
    | [] => ret tt st
    | line :: lines =>
        bind (write_line line) (fun _ => print_next_lines row lines) st
    end.
Proof.
  induction chars as [|c rest IH]; intros row st;
    cbn [forEach_var split_lines].
  - reflexivity.
  - unfold print_char at 1.
    destruct (string_eqb c newline); cbv zeta.
    + rewrite !bind_assoc.
      destruct (split_lines_cons rest) as (line & lines & Hs).
      rewrite Hs in *. 
      change (bind (write_line []) (fun _ => print_next_lines row (line :: lines)) st)
        with (print_next_lines row (line :: lines) st).
      cbn [print_next_lines]. apply bind_ext. intros _ st'.
      rewrite <- (IH (row + 1) st'). reflexivity.
    + rewrite !bind_assoc.
      destruct (split_lines_cons rest) as (line & lines & Hs).
      rewrite Hs in *.
      change (write_line (c :: line))
        with (_write8Bits (charCodeAt c 0) (Some true) None None ;;
              write_line line).
      rewrite !bind_assoc.
      apply bind_ext. intros _ st'.
      rewrite <- (IH row st'). reflexivity.
Qed.

(** ** The 8-bit transfer *)

(** C1. An 8-bit transfer is two 4-bit nibble writes, the high nibble first:
    after the settle sleep and the register-select write, data pin [i] is
    driven with bit [i + 4] of the value, the enable line is pulsed once
    (low, 1 us, high, 1 us, low, 1 us), then (after the optional
    initialization sleep) data pin [i] is driven with bit [i] and the enable
    line is pulsed once more.  Nothing else is logged, and this holds for
    every integer value, the 8-bit ones in particular. *)
Theorem write8Bits_two_nibbles (value : Z) (registerSelect : option bool)
    (writeWait initWait : option Z) (pins : list pin) (st : state) :
  pinsData (self st) = Some pins ->
  let rs := match registerSelect with Some b => b | None => false end in
  let settle := match writeWait with Some w => w | None => 50 end in
  let extra := match initWait with Some w => w | None => 0 end in
  let enable := pinEnable (self st) in
  _write8Bits value registerSelect writeWait initWait st
  = (Ok tt,
     mkState (self st)
       (io st
        ++ [EUsleep settle; EWrite (pinRs (self st)) (if rs then HIGH else LOW)]
        ++ [EWrite (array_get pins 0) (Z.b2z (Z.testbit value 4));
            EWrite (array_get pins 1) (Z.b2z (Z.testbit value 5));
            EWrite (array_get pins 2) (Z.b2z (Z.testbit value 6));
            EWrite (array_get pins 3) (Z.b2z (Z.testbit value 7))]
        ++ [EWrite enable LOW; EUsleep 1; EWrite enable HIGH; EUsleep 1;
            EWrite enable LOW; EUsleep 1]
        ++ (if extra =? 0 then [] else [EUsleep extra])
        ++ [EWrite (array_get pins 0) (Z.b2z (Z.testbit value 0));
            EWrite (array_get pins 1) (Z.b2z (Z.testbit value 1));
            EWrite (array_get pins 2) (Z.b2z (Z.testbit value 2));
            EWrite (array_get pins 3) (Z.b2z (Z.testbit value 3))]
        ++ [EWrite enable LOW; EUsleep 1; EWrite enable HIGH; EUsleep 1;
            EWrite enable LOW; EUsleep 1])).
Proof.
  intros Hp rs settle extra enable.
  rewrite (write8Bits_run value registerSelect writeWait initWait pins st Hp).
  reflexivity.
Qed.

(** ** [setCursor] *)

Lemma clamp_row_above (rows row : Z) :
  rows <= row -> clamp_row (Some rows) row = Int (rows - 1).
Proof.
  intros H. unfold clamp_row. cbn [ToNumber js_sub js_gt].
  destruct (Z.ltb_spec (rows - 1) row); [reflexivity | lia].
Qed.

Lemma clamp_row_below (rows row : Z) :
  row <= rows - 1 -> clamp_row (Some rows) row = Int row.
Proof.
  intros H. unfold clamp_row. cbn [ToNumber js_sub js_gt].
  destruct (Z.ltb_spec (rows - 1) row); [lia | reflexivity].
Qed.

(** C4. A row at or beyond the configured row count is clamped to the last
    row before the row-offset table is read: [setCursor col row] behaves as
    [setCursor col (rows - 1)], and what it sends is the instruction made
    from the table entry of row [rows - 1].  A negative row is not clamped:
    the table is read at the negative index itself, where it has no entry,
    so that the instruction is 0x80 alone. *)
Theorem setCursor_clamps_high_rows_only (col row low rows : Z) (st : state) :
  lcdRows (self st) = Some rows ->
  (rows <= row ->
   clamp_row (lcdRows (self st)) row = Int (rows - 1)
   /\ setCursor col row st = setCursor col (rows - 1) st
   /\ (exact_column col ->
       setCursor col row st
       = _write8Bits
           (js_or command.SETDDRAMADDR
              (js_add col (ToNumber (index ROWOFFSETS (Int (rows - 1))))))
           (Some false) (Some 50) (Some 0) st))
  /\ (low < 0 -> 0 <= rows ->
      clamp_row (lcdRows (self st)) low = Int low
      /\ index ROWOFFSETS (Int low) = None
      /\ setCursor col low st
         = _write8Bits 0x80 (Some false) (Some 50) (Some 0) st).
Proof.
  intros Hrows. rewrite !setCursor_unfold, Hrows. split.
  - intros Hhigh.
    rewrite (clamp_row_above rows row Hhigh).
    rewrite (clamp_row_below rows (rows - 1)) by lia.
    repeat split.
  - intros Hlow Hvalid.
    rewrite (clamp_row_below rows low) by lia.
    assert (Hi : index ROWOFFSETS (Int low) = None).
    { unfold index. destruct (Z.ltb_spec low 0); [reflexivity | lia]. }
    rewrite Hi. repeat split.
Qed.

(** C5. When the clamped row [r] lies in 0..3, [setCursor] adds the column
    to entry [r] of the row-offset table [0x00, 0x40, 0x14, 0x54] and sends
    the sum, combined with [SETDDRAMADDR] (0x80), as one command-mode
    transfer with the default delays.  The column is any integer for which
    the sum is exact, the columns from 0 to 2^53 - 84 among them. *)
Theorem setCursor_address (col row rows : Z) (st : state) :
  lcdRows (self st) = Some rows ->
  exact_column col ->
  let r := Z.min row (rows - 1) in
  0 <= r <= 3 ->
  ROWOFFSETS = [0x00; 0x40; 0x14; 0x54]
  /\ command.SETDDRAMADDR = 0x80
  /\ clamp_row (lcdRows (self st)) row = Int r
  /\ setCursor col row st
     = _write8Bits
         (js_or command.SETDDRAMADDR (col + nth (Z.to_nat r) ROWOFFSETS 0))
         (Some false) (Some 50) (Some 0) st.
Proof.
  intros Hrows _ r Hr.
  assert (Hc : clamp_row (lcdRows (self st)) row = Int r).
  { rewrite Hrows. subst r.
    destruct (Z.le_gt_cases rows row).
    - rewrite clamp_row_above by lia. f_equal. lia.
    - rewrite clamp_row_below by lia. f_equal. lia. }
  repeat split; try reflexivity; try exact Hc.
  rewrite setCursor_unfold, Hc.
  assert (Hi : ToNumber (index ROWOFFSETS (Int r))
               = Int (nth (Z.to_nat r) ROWOFFSETS 0)).
  { assert (Hcases : r = 0 \/ r = 1 \/ r = 2 \/ r = 3) by lia.
    destruct Hcases as [-> | [-> | [-> | ->]]]; reflexivity. }
  rewrite Hi. reflexivity.
Qed.

(** ** Frame *)

(** C10. The fields of the instance are assigned by the constructor, which
    copies them from the configuration, and by nothing else: [clear],
    [print] and [setCursor] leave every field as it was, whatever their
    arguments and whether or not they complete. *)
Theorem public_operations_keep_fields (config : object) (str : jsstring)
    (col row : Z) (st : state) :
  self (snd (constructor config st)) = config
  /\ self (snd (clear st)) = self st
  /\ self (snd (print str st)) = self st
  /\ self (snd (setCursor col row st)) = self st.
Proof.
  repeat split.
  - apply constructor_self.
  - apply keeps_clear.
  - apply keeps_print.
  - apply keeps_setCursor.
Qed.

(** ** Construction: order, delays and failures *)

(** C2 (amended). For every configuration with a data-pin array whose pins
    the GPIO module accepts (the valid configurations among them),
    construction configures the pins and then issues exactly six transfers
    before returning: the raw writes 0x33 and 0x32 in command mode, the three
    composed instructions DISPLAYCONTROL|DISPLAYON|CURSOROFF|BLINKOFF,
    FUNCTIONSET|FOURBITMODE|TWOLINE|FIVEBYEIGHTDOTS and
    ENTRYMODESET|ENTRYLEFT|ENTRYSHIFTDECREMENT, and the clear instruction,
    in this order: four instructions after the two raw writes. *)
Theorem constructor_sequence (config : object) (pins : list pin) (st : state) :
  pinsData config = Some pins ->
  opens_ok config pins = true ->
  let command_write value := transfer_events config pins (Int value) false in
  constructor config st
  = (Ok tt,
     mkState config
       (io st
        ++ setup_events config pins
        ++ command_write 0x33 1 4100
        ++ command_write 0x32 1 100
        ++ command_write
             (Z.lor command.DISPLAYCONTROL
                (Z.lor controlFlags.DISPLAYON
                   (Z.lor controlFlags.CURSOROFF controlFlags.BLINKOFF)))
             50 0
        ++ command_write
             (Z.lor command.FUNCTIONSET
                (Z.lor functionSetFlags.FOURBITMODE
                   (Z.lor functionSetFlags.TWOLINE
                      functionSetFlags.FIVEBYEIGHTDOTS)))
             50 0
        ++ command_write
             (Z.lor command.ENTRYMODESET
                (Z.lor entryModeFlags.ENTRYLEFT
                   entryModeFlags.ENTRYSHIFTDECREMENT))
             50 0
        ++ command_write command.CLEARDISPLAY 50 0)).
Proof.
  intros Hp Hok command_write.
  rewrite (constructor_ok config pins st Hp Hok).
  unfold init_events, init_transfers. cbn [map concat events_of].
  rewrite app_nil_r. reflexivity.
Qed.

(** C6. The raw writes 0x33 and 0x32 of the constructor sleep 4100 and 100
    microseconds between their two nibbles; the other writes of the
    constructor, [clear], [setCursor] and the character writes of [print]
    sleep 50 microseconds before the write and not at all between the
    nibbles. *)
Theorem write_delays (config : object) (pins : list pin) (st : state)
    (pins' : list pin) (st' : state) (col row : Z) (char : jsstring) :
  pinsData config = Some pins ->
  opens_ok config pins = true ->
  pinsData (self st') = Some pins' ->
  string_eqb char newline = false ->
  constructor config st
  = (Ok tt,
     mkState config
       (io st
        ++ setup_events config pins
        ++ transfer_events config pins 0x33 false 1 4100
        ++ transfer_events config pins 0x32 false 1 100
        ++ transfer_events config pins 0x0C false 50 0
        ++ transfer_events config pins 0x28 false 50 0
        ++ transfer_events config pins 0x06 false 50 0
        ++ transfer_events config pins command.CLEARDISPLAY false 50 0))
  /\ clear st'
     = (Ok tt,
        log (transfer_events (self st') pins' command.CLEARDISPLAY false 50 0)
            st')
  /\ (exists address,
        setCursor col row st'
        = (Ok tt,
           log (transfer_events (self st') pins' address false 50 0) st'))
  /\ print_char char row st'
     = (Ok row,
        log (transfer_events (self st') pins' (charCodeAt char 0) true 50 0)
            st')
  /\ (forall o p value rs settle extra,
        transfer_events o p value rs settle extra
        = [EUsleep settle; EWrite (pinRs o) (if rs then HIGH else LOW)]
          ++ nibble_events p value 4 ++ pulse_events o
          ++ (if extra =? 0 then [] else [EUsleep extra])
          ++ nibble_events p value 0 ++ pulse_events o).
Proof.
  intros Hp Hok Hp' Hchar. repeat split.
  - rewrite (constructor_ok config pins st Hp Hok).
    unfold init_events, init_transfers. cbn [map concat events_of].
    rewrite app_nil_r. reflexivity.
  - exact (clear_run pins' st' Hp').
  - eexists. exact (setCursor_run col row pins' st' Hp').
  - rewrite (print_char_run char row pins' st' Hp'), Hchar. reflexivity.
Qed.

Lemma only_opens_no_write (tr : list event) :
  forallb is_open tr = true ->
  forall e, In e tr -> exists p mode init, e = EOpen p mode init.
Proof.
  intros H e He. rewrite forallb_forall in H. specialize (H e He).
  destruct e; try discriminate. eauto.
Qed.

(** C8. When a pin-configuration call of the constructor fails, on the
    register-select pin, on the enable pin or on one of the data pins, the
    constructor throws, and everything it has logged by then is a pin
    configuration: not one write or sleep of an instruction was issued. *)
Theorem constructor_aborts_on_open_failure (config : object) (st : state) :
  open_ok (pinRs config) = false
  \/ open_ok (pinEnable config) = false
  \/ (exists pins, pinsData config = Some pins
                   /\ forallb open_ok pins = false) ->
  exists e tr,
    constructor config st = (Throw e, mkState config (io st ++ tr))
    /\ forall ev, In ev tr -> exists p mode init, ev = EOpen p mode init.
Proof.
  intros Hfail.
  destruct (constructor_fail config st) as (e & tr & Hrun & Htr).
  - intros pins Hp. unfold opens_ok.
    destruct Hfail as [H | [H | (pins' & Hp' & H)]].
    + now rewrite H.
    + rewrite H. now rewrite andb_false_r.
    + rewrite Hp in Hp'. injection Hp' as <-. rewrite H.
      now rewrite andb_false_r.
  - exists e, tr. split; [exact Hrun | now apply only_opens_no_write].
Qed.

(** C7 (amended). The constructor does not validate its configuration: the
    row and column counts are never examined and data pins after the fourth
    are configured and then left unused, so a configuration with accepted
    pins and at least four data pins is constructed and initialized whatever
    rows and columns it gives, absent, zero and negative ones included.  A
    configuration is rejected before any write or sleep when its data-pin
    array is absent or when a pin-configuration call fails. *)
Theorem constructor_checks_nothing_itself (config : object) (pins : list pin)
    (columns rows : option Z) (st : state) :
  pinsData config = Some pins ->
  (4 <= length pins)%nat ->
  opens_ok config pins = true ->
  let config' := set_lcdRows rows (set_lcdColumns columns config) in
  constructor config' st
  = (Ok tt,
     mkState config'
       (io st ++ setup_events config pins ++ init_events config pins))
  /\ forall other,
       pinsData other = None
       \/ (exists pins', pinsData other = Some pins'
                         /\ opens_ok other pins' = false) ->
       exists e tr,
         constructor other st = (Throw e, mkState other (io st ++ tr))
         /\ forallb is_open tr = true.
Proof.
  intros Hp Hlen Hok config'. split.
  - apply (constructor_ok config' pins st); [exact Hp | exact Hok].
  - intros other Hbad. apply constructor_fail. intros q Hq.
    destruct Hbad as [Hnone | (pins' & Hp' & Hfail)].
    + rewrite Hnone in Hq. discriminate.
    + rewrite Hp' in Hq. now injection Hq as <-.
Qed.

(** ** [print]: lines and characters *)

Lemma bind_ret_l {A B : Type} (a : A) (k : A -> M B) (st : state) :
  bind (ret a) k st = k a st.
Proof. reflexivity. Qed.

Lemma bind_ret_r (c : M unit) (st : state) : bind c (fun _ => ret tt) st = c st.
Proof.
  unfold bind, ret. destruct (c st) as [[[]|e] st']; reflexivity.
Qed.

(** C3. [print] writes the characters of the first line of its text in data
    mode and, for each newline, calls [setCursor 0 (currentRow + 1)] before
    it goes on with the next line, where [currentRow] counts from 0 the
    newlines of this call; the counter is passed on as it is, so the third
    line of a text is sent to row 2, on a display of two rows too.  In
    particular, printing AB, newline, CD writes A and B, sets the cursor to
    (0, 1) and writes C and D. *)
Theorem print_line_by_line (str : jsstring) (st : state) :
  let data c := _write8Bits (Int c) (Some true) None None in
  print str st = print_lines (split_lines (Array_from str)) st
  /\ print [65; 66; 10; 67; 68] st
     = (data 65 ;; data 66 ;; setCursor 0 1 ;; data 67 ;; data 68) st
  /\ print [65; 10; 66; 10; 67] st
     = (data 65 ;; setCursor 0 1 ;; data 66 ;; setCursor 0 2 ;; data 67) st.
Proof.
  intros data.
  assert (Hgen : forall s st0,
             print s st0 = print_lines (split_lines (Array_from s)) st0).
  { intros s st0. unfold print. cbv zeta. rewrite print_loop_lines.
    destruct (split_lines_cons (Array_from s)) as (line & lines & Hs).
    rewrite Hs. reflexivity. }
  split; [apply Hgen | split].
  - rewrite Hgen.
    change (split_lines (Array_from [65; 66; 10; 67; 68]))
      with [[[65]; [66]]; [[67]; [68]]].
    unfold print_lines, print_next_lines, write_line. cbn [forEach].
    rewrite !bind_assoc. apply bind_ext; intros _ st1.
    rewrite !bind_assoc. apply bind_ext; intros _ st2.
    rewrite bind_ret_l.
    apply bind_ext; intros _ st3.
    rewrite !bind_assoc. apply bind_ext; intros _ st4.
    rewrite !bind_assoc.
    etransitivity; [| apply bind_ret_r]. apply bind_ext; intros _ st5.
    reflexivity.
  - rewrite Hgen.
    change (split_lines (Array_from [65; 10; 66; 10; 67]))
      with [[[65]]; [[66]]; [[67]]].
    unfold print_lines, print_next_lines, write_line. cbn [forEach].
    rewrite !bind_assoc. apply bind_ext; intros _ st1.
    rewrite bind_ret_l.
    apply bind_ext; intros _ st2.
    rewrite !bind_assoc. apply bind_ext; intros _ st3.
    rewrite bind_ret_l.
    apply bind_ext; intros _ st4.
    rewrite !bind_assoc.
    etransitivity; [| apply bind_ret_r]. apply bind_ext; intros _ st5.
    reflexivity.
Qed.

Lemma nibble_events_low8 (pins : list pin) (value : number) (base : Z) :
  0 <= base <= 4 ->
  nibble_events pins (Int (low8 value)) base = nibble_events pins value base.
Proof.
  intros Hb. unfold nibble_events. cbn [map].
  rewrite !bit_of_low8 by lia. reflexivity.
Qed.

Lemma transfer_events_low8 o pins value rs settle extra :
  transfer_events o pins (Int (low8 value)) rs settle extra
  = transfer_events o pins value rs settle extra.
Proof.
  unfold transfer_events. now rewrite !nibble_events_low8 by lia.
Qed.

(** C9. A character of the text that is not a newline is sent by one
    data-mode transfer (register select high) of its character code, as it
    is: the levels of the data pins are those of the code reduced modulo
    256. *)
Theorem print_sends_low_byte (str : jsstring) (pre post : list jsstring)
    (char : jsstring) (pins : list pin) (st : state) :
  Array_from str = pre ++ char :: post ->
  string_eqb char newline = false ->
  pinsData (self st) = Some pins ->
  let enable := pinEnable (self st) in
  let code := low8 (charCodeAt char 0) in
  exists row evs,
    forEach_var pre print_char 0 st = (Ok row, log evs st)
    /\ print str st
       = (forEach_var post print_char row ;; ret tt)
           (log (evs
                 ++ [EUsleep 50; EWrite (pinRs (self st)) HIGH]
                 ++ [EWrite (array_get pins 0) (Z.b2z (Z.testbit code 4));
                     EWrite (array_get pins 1) (Z.b2z (Z.testbit code 5));
                     EWrite (array_get pins 2) (Z.b2z (Z.testbit code 6));
                     EWrite (array_get pins 3) (Z.b2z (Z.testbit code 7))]
                 ++ [EWrite enable LOW; EUsleep 1; EWrite enable HIGH;
                     EUsleep 1; EWrite enable LOW; EUsleep 1]
                 ++ [EWrite (array_get pins 0) (Z.b2z (Z.testbit code 0));
                     EWrite (array_get pins 1) (Z.b2z (Z.testbit code 1));
                     EWrite (array_get pins 2) (Z.b2z (Z.testbit code 2));
                     EWrite (array_get pins 3) (Z.b2z (Z.testbit code 3))]
                 ++ [EWrite enable LOW; EUsleep 1; EWrite enable HIGH;
                     EUsleep 1; EWrite enable LOW; EUsleep 1]) st).
Proof.
  intros Hsplit Hchar Hp enable code.
  destruct (print_loop_run pins pre 0 st Hp) as [evs Hpre].
  exists (0 + count_newlines pre), evs. split; [exact Hpre |].
  unfold print. cbv zeta. rewrite Hsplit.
  rewrite forEach_var_app_bind.
  rewrite (bind_ok _ _ _ _ _ Hpre).
  cbn [forEach_var]. rewrite !bind_assoc.
  pose proof (print_char_run char (0 + count_newlines pre) pins
                (log evs st) Hp) as Hc.
  rewrite Hchar in Hc. rewrite (bind_ok _ _ _ _ _ Hc).
  rewrite log_log, self_log.
  rewrite <- (transfer_events_low8 _ _ (charCodeAt char 0)).
  reflexivity.
Qed.

(** * Further properties *)

(** ** Failures of the constructor *)

Lemma open_loop_stops (good rest : list pin) (bad : pin) :
  forall st : state,
  forallb open_ok good = true ->
  open_ok bad = false ->
  forEach (good ++ bad :: rest) (fun p => rpio_open p OUTPUT LOW) st
  = (Throw (GpioError bad), log (map (fun p => EOpen p OUTPUT LOW) good) st).
Proof.
  induction good as [|p good IH]; intros st Hgood Hbad; cbn [app forEach map].
  - unfold bind, rpio_open. rewrite Hbad. now rewrite log_nil.
  - cbn [forallb] in Hgood. apply andb_true_iff in Hgood as [Hp Hgood].
    unfold bind at 1. unfold rpio_open at 1. rewrite Hp.
    rewrite IH by assumption. now rewrite log_log.
Qed.

(** The pins are opened in the order register select, enable, data pins;
    the first data pin that the GPIO module refuses stops the constructor
    with the error of that pin, and the pins opened before it stay
    configured: no pin is closed again and nothing is written. *)
Theorem constructor_stops_at_first_bad_pin (config : object)
    (good rest : list pin) (bad : pin) (st : state) :
  pinsData config = Some (good ++ bad :: rest) ->
  open_ok (pinRs config) = true ->
  open_ok (pinEnable config) = true ->
  forallb open_ok good = true ->
  open_ok bad = false ->
  constructor config st
  = (Throw (GpioError bad),
     mkState config
       (io st
        ++ EOpen (pinRs config) OUTPUT LOW
        :: EOpen (pinEnable config) OUTPUT LOW
        :: map (fun p => EOpen p OUTPUT LOW) good)).
Proof.
  intros Hp Hrs Hen Hgood Hbad. unfold constructor.
  rewrite !bind_assign. cbn [self io]. rewrite assigned.
  rewrite (bind_ok _ _ _ tt
             (mkState config (io st ++ [EOpen (pinRs config) OUTPUT LOW]))).
  2:{ unfold bind, field, rpio_open. cbn [self]. now rewrite Hrs. }
  rewrite (bind_ok _ _ _ tt
             (mkState config
                ((io st ++ [EOpen (pinRs config) OUTPUT LOW])
                 ++ [EOpen (pinEnable config) OUTPUT LOW]))).
  2:{ unfold bind, field, rpio_open. cbn [self]. now rewrite Hen. }
  erewrite bind_throw.
  2:{ unfold bind at 1. unfold field at 1. cbn [self]. rewrite Hp.
      apply open_loop_stops; assumption. }
  unfold log; cbn [self io]. now rewrite <- !app_assoc.
Qed.

(** Without a data-pin array the constructor opens the register-select and
    enable pins and then throws a [TypeError]; nothing is written. *)
Theorem constructor_without_data_pins (config : object) (st : state) :
  pinsData config = None ->
  open_ok (pinRs config) = true ->
  open_ok (pinEnable config) = true ->
  constructor config st
  = (Throw TypeError,
     mkState config
       (io st ++ [EOpen (pinRs config) OUTPUT LOW;
                  EOpen (pinEnable config) OUTPUT LOW])).
Proof.
  intros Hp Hrs Hen. unfold constructor.
  rewrite !bind_assign. cbn [self io]. rewrite assigned.
  rewrite (bind_ok _ _ _ tt
             (mkState config (io st ++ [EOpen (pinRs config) OUTPUT LOW]))).
  2:{ unfold bind, field, rpio_open. cbn [self]. now rewrite Hrs. }
  rewrite (bind_ok _ _ _ tt
             (mkState config
                ((io st ++ [EOpen (pinRs config) OUTPUT LOW])
                 ++ [EOpen (pinEnable config) OUTPUT LOW]))).
  2:{ unfold bind, field, rpio_open. cbn [self]. now rewrite Hen. }
  erewrite bind_throw.
  2:{ unfold bind at 1. unfold field at 1. cbn [self]. rewrite Hp.
      reflexivity. }
  now rewrite <- !app_assoc.
Qed.

(** ** A constructed instance accepts every call *)

(** When the constructor returns, the instance holds a data-pin array, and
    on such an instance [clear], [setCursor] and [print] return normally for
    all arguments, only adding to the log. *)
Theorem constructed_instance_never_throws (config : object) (st st1 : state)
    (str : jsstring) (col row : Z) :
  constructor config st = (Ok tt, st1) ->
  (exists pins, pinsData (self st1) = Some pins)
  /\ (exists evs, clear st1 = (Ok tt, log evs st1))
  /\ (exists evs, setCursor col row st1 = (Ok tt, log evs st1))
  /\ (exists evs, print str st1 = (Ok tt, log evs st1)).
Proof.
  intros Hok.
  assert (Hself : self st1 = config).
  { pose proof (constructor_self config st) as H. now rewrite Hok in H. }
  assert (Hp : exists pins, pinsData (self st1) = Some pins).
  { rewrite Hself. destruct (pinsData config) as [pins|] eqn:Hp; [eauto |].
    destruct (constructor_fail config st) as (e & tr & Hrun & _).
    - intros q Hq. rewrite Hp in Hq. discriminate.
    - rewrite Hrun in Hok. discriminate. }
  destruct Hp as [pins Hp]. split; [eauto |]. repeat split.
  - eexists. apply (clear_run pins st1 Hp).
  - eexists. apply (setCursor_run col row pins st1 Hp).
  - destruct (print_loop_run pins (Array_from str) 0 st1 Hp) as [evs Hrun].
    exists evs. unfold print. cbv zeta.
    now rewrite (bind_ok _ _ _ _ _ Hrun).
Qed.

(** ** Only the low byte of a value is transferred *)

Lemma write8Bits_no_pins (value : number) (rs : option bool)
    (ww iw : option Z) (st : state) :
  pinsData (self st) = None ->
  _write8Bits value rs ww iw st
  = (Throw TypeError,
     log [EUsleep (match ww with Some w => w | None => 50 end);
          EWrite (pinRs (self st))
                 (if match rs with Some b => b | None => false end
                  then HIGH else LOW)] st).
Proof.
  intros Hp. unfold _write8Bits.
  set (b := match rs with Some b => b | None => false end).
  set (w := match ww with Some w => w | None => 50 end).
  rewrite (bind_ok _ _ st tt (log [EUsleep w] st) eq_refl).
  rewrite (bind_ok _ _ _ tt _ (rs_write_run b _)).
  rewrite log_log. erewrite bind_throw; [reflexivity |].
  cbn [for_loop]. erewrite bind_throw; [reflexivity |].
  erewrite bind_throw; [reflexivity |].
  unfold pinsData_at, bind, field. cbn [self log]. rewrite Hp. reflexivity.
Qed.

Lemma low8_Int (z : Z) : low8 (Int z) = z mod 256.
Proof. reflexivity. Qed.

Lemma write8Bits_mod_256 (value value' : Z) (rs : option bool)
    (ww iw : option Z) (st : state) :
  value mod 256 = value' mod 256 ->
  _write8Bits value rs ww iw st = _write8Bits value' rs ww iw st.
Proof.
  intros Hmod. destruct (pinsData (self st)) as [pins|] eqn:Hp.
  - rewrite !(write8Bits_run _ _ _ _ pins st Hp).
    rewrite <- (transfer_events_low8 _ _ (Int value)).
    rewrite <- (transfer_events_low8 _ _ (Int value')).
    now rewrite !low8_Int, Hmod.
  - now rewrite !write8Bits_no_pins.
Qed.

(** Two values that agree modulo 256 are transferred alike, from every
    state: bits 8 and above never reach the display. *)
Theorem write8Bits_low_byte_only (value value' : Z) (rs : option bool)
    (ww iw : option Z) (st : state) :
  value mod 256 = value' mod 256 ->
  _write8Bits value rs ww iw st = _write8Bits value' rs ww iw st.
Proof. apply write8Bits_mod_256. Qed.

(** ** Cursor addresses *)

Lemma js_or_testbit (a b k : Z) :
  0 <= k < 32 ->
  Z.testbit (js_or a b) k = Z.testbit a k || Z.testbit b k.
Proof.
  intros Hk. unfold js_or.
  rewrite ToInt32_testbit, Z.lor_spec, !ToInt32_testbit by lia. reflexivity.
Qed.

Lemma add_128_low_bits (x k : Z) :
  0 <= k < 7 -> Z.testbit (x + 128) k = Z.testbit x k.
Proof.
  intros Hk.
  rewrite <- (Z.mod_pow2_bits_low (x + 128) 7 k) by lia.
  rewrite <- (Z.mod_pow2_bits_low x 7 k) by lia.
  f_equal. change 128 with (1 * 2 ^ 7). apply Z_mod_plus_full.
Qed.

Lemma cursor_byte_mod_128 (x : Z) :
  js_or command.SETDDRAMADDR (x + 128) mod 256
  = js_or command.SETDDRAMADDR x mod 256.
Proof.
  change 256 with (2 ^ 8). apply Z.bits_inj'. intros k Hk.
  rewrite !Z.testbit_mod_pow2 by lia.
  destruct (Z.ltb_spec k 8) as [Hlt|]; [| reflexivity]. cbn [andb].
  rewrite !js_or_testbit by lia.
  destruct (Z.eq_dec k 7) as [-> | Hne]; [reflexivity |].
  now rewrite add_128_low_bits by lia.
Qed.

(** The column is taken modulo 128: bit 7 of the instruction is the opcode
    and the bits above it are not transferred, so a column 128 further on
    addresses the same cell.  Both columns are in the range where the sum
    with the row offset is exact. *)
Theorem setCursor_column_mod_128 (col row : Z) (st : state) :
  exact_column col ->
  exact_column (col + 128) ->
  setCursor (col + 128) row st = setCursor col row st.
Proof.
  intros _ _. rewrite !setCursor_unfold.
  destruct (ToNumber (index ROWOFFSETS (clamp_row (lcdRows (self st)) row)))
    as [|off]; cbn [js_add]; [reflexivity |].
  apply write8Bits_mod_256.
  replace (col + 128 + off) with (col + off + 128) by lia.
  apply cursor_byte_mod_128.
Qed.

Lemma index_outside (r : Z) :
  r < 0 \/ 4 <= r -> index ROWOFFSETS (Int r) = None.
Proof.
  intros [H | H]; unfold index.
  - destruct (Z.ltb_spec r 0); [reflexivity | lia].
  - destruct (Z.ltb_spec r 0); [reflexivity |].
    apply nth_error_None. cbn [ROWOFFSETS length]. lia.
Qed.

Lemma clamp_row_absent (row : Z) : clamp_row None row = Int row.
Proof. reflexivity. Qed.

(** When the row that [setCursor] ends up with is outside the table of four
    offsets (a negative row, a row from 4 on with more than four rows
    configured, or either of them with no row count at all), the offset is
    [undefined], the sum is [NaN], and the instruction sent is 0x80 alone:
    the cursor goes to address 0 and the column is ignored. *)
Theorem setCursor_outside_table (col row : Z) (st : state) :
  (exists rows, lcdRows (self st) = Some rows
                /\ ((0 <= rows /\ row < 0) \/ (5 <= rows /\ 4 <= row)))
  \/ (lcdRows (self st) = None /\ (row < 0 \/ 4 <= row)) ->
  setCursor col row st
  = _write8Bits 0x80 (Some false) (Some 50) (Some 0) st.
Proof.
  intros H. rewrite setCursor_unfold.
  assert (Hi : index ROWOFFSETS (clamp_row (lcdRows (self st)) row) = None).
  { destruct H as [(rows & -> & [[Hr Hrow] | [Hr Hrow]]) | [-> Hrow]].
    - rewrite clamp_row_below by lia. apply index_outside. lia.
    - destruct (Z.le_gt_cases rows row).
      + rewrite clamp_row_above by lia. apply index_outside. lia.
      + rewrite clamp_row_below by lia. apply index_outside. lia.
    - rewrite clamp_row_absent. now apply index_outside. }
  rewrite Hi. reflexivity.
Qed.

(** Without a row count nothing is clamped ([row > NaN] is false): a row in
    0..3 is addressed through its own table entry, whatever the display,
    for every column for which the sum with the offset is exact. *)
Theorem setCursor_without_row_count (col row : Z) (st : state) :
  lcdRows (self st) = None ->
  exact_column col ->
  0 <= row <= 3 ->
  setCursor col row st
  = _write8Bits
      (js_or command.SETDDRAMADDR (col + nth (Z.to_nat row) ROWOFFSETS 0))
      (Some false) (Some 50) (Some 0) st.
Proof.
  intros Hrows _ Hrow. rewrite setCursor_unfold, Hrows.
  change (clamp_row None row) with (Int row).
  assert (Hcases : row = 0 \/ row = 1 \/ row = 2 \/ row = 3) by lia.
  destruct Hcases as [-> | [-> | [-> | ->]]]; reflexivity.
Qed.


Lemma In_zrange (count : nat) :
  forall start x,
  start <= x < start + Z.of_nat count -> In x (zrange start count).
Proof.
  induction count as [|n IH]; intros start x Hx; cbn [zrange].
  - lia.
  - destruct (Z.eq_dec x start) as [-> | Hne]; [now left | right].
    apply IH. lia.
Qed.

Lemma cursor_byte_small (x : Z) :
  0 <= x < 128 -> js_or command.SETDDRAMADDR x mod 256 = 128 + x.
Proof.
  intros Hx.
  assert (Hall : forallb
                   (fun y : Z =>
                      js_or command.SETDDRAMADDR y mod 256 =? 128 + y)
                   (zrange 0 128) = true) by (vm_compute; reflexivity).
  rewrite forallb_forall in Hall.
  apply Z.eqb_eq, Hall, In_zrange. lia.
Qed.

Lemma b2z_inj (a b : bool) : Z.b2z a = Z.b2z b -> a = b.
Proof. now destruct a, b. Qed.

Lemma low8_from_bits (v v' : Z) :
  (forall k, 0 <= k < 8 -> bit_of (Int v) k = bit_of (Int v') k) ->
  v mod 256 = v' mod 256.
Proof.
  intros H. change 256 with (2 ^ 8). apply Z.bits_inj'. intros k Hk.
  rewrite !Z.testbit_mod_pow2 by lia.
  destruct (Z.ltb_spec k 8) as [Hlt|]; [| reflexivity]. cbn [andb].
  apply b2z_inj. apply (H k). lia.
Qed.

(** The log of a transfer determines the low byte of its value. *)
Lemma transfer_events_byte o pins (v v' : Z) rs rs' w w' e e' :
  transfer_events o pins v rs w e = transfer_events o pins v' rs' w' e' ->
  v mod 256 = v' mod 256.
Proof.
  intros H.
  assert (Hn : forall n,
             nth n (transfer_events o pins v rs w e) (EUsleep 0)
             = nth n (transfer_events o pins v' rs' w' e') (EUsleep 0))
    by (intros n; now rewrite H).
  apply (f_equal (@length event)) in H.
  unfold transfer_events, nibble_events, inter_nibble_events in H, Hn.
  cbn [map app] in H, Hn.
  pose proof (Hn 2%nat) as H4. pose proof (Hn 3%nat) as H5.
  pose proof (Hn 4%nat) as H6. pose proof (Hn 5%nat) as H7.
  cbn [nth] in H4, H5, H6, H7.
  injection H4 as H4. injection H5 as H5.
  injection H6 as H6. injection H7 as H7.
  assert (Hlow : bit_of v (0 + 0) = bit_of v' (0 + 0)
                 /\ bit_of v (0 + 1) = bit_of v' (0 + 1)
                 /\ bit_of v (0 + 2) = bit_of v' (0 + 2)
                 /\ bit_of v (0 + 3) = bit_of v' (0 + 3)).
  { destruct (e =? 0), (e' =? 0); cbn [app length] in H; try discriminate.
    - pose proof (Hn 12%nat) as H0. pose proof (Hn 13%nat) as H1.
      pose proof (Hn 14%nat) as H2. pose proof (Hn 15%nat) as H3.
      cbn [nth app] in H0, H1, H2, H3.
      injection H0 as H0. injection H1 as H1.
      injection H2 as H2. injection H3 as H3. auto.
    - pose proof (Hn 13%nat) as H0. pose proof (Hn 14%nat) as H1.
      pose proof (Hn 15%nat) as H2. pose proof (Hn 16%nat) as H3.
      cbn [nth app] in H0, H1, H2, H3.
      injection H0 as H0. injection H1 as H1.
      injection H2 as H2. injection H3 as H3. auto. }
  destruct Hlow as (H0 & H1 & H2 & H3).
  apply low8_from_bits. intros k Hk.
  assert (Hcases : k = 0 + 0 \/ k = 0 + 1 \/ k = 0 + 2 \/ k = 0 + 3
                   \/ k = 4 + 0 \/ k = 4 + 1 \/ k = 4 + 2 \/ k = 4 + 3)
    by lia.
  destruct Hcases as [-> | [-> | [-> | [-> | [-> | [-> | [-> | ->]]]]]]];
    assumption.
Qed.

(** Within the width of the display (64 columns with up to two rows, 20
    with three or four), two cursor positions are sent alike only when they
    are the same position: no two cells of the display share an address. *)
Theorem setCursor_distinct_cells (col row col' row' rows : Z)
    (pins : list pin) (st : state) :
  pinsData (self st) = Some pins ->
  lcdRows (self st) = Some rows ->
  rows <= 4 ->
  0 <= row < rows ->
  0 <= row' < rows ->
  0 <= col < (if rows <=? 2 then 64 else 20) ->
  0 <= col' < (if rows <=? 2 then 64 else 20) ->
  setCursor col row st = setCursor col' row' st ->
  col = col' /\ row = row'.
Proof.
  intros Hp Hrows Hmax Hrow Hrow' Hcol Hcol' Heq.
  rewrite !(setCursor_run _ _ pins st Hp), Hrows in Heq.
  rewrite !clamp_row_below in Heq by lia.
  assert (Hoff : forall r, 0 <= r <= 3 ->
             ToNumber (index ROWOFFSETS (Int r))
             = Int (nth (Z.to_nat r) ROWOFFSETS 0)).
  { intros r Hr. assert (Hc : r = 0 \/ r = 1 \/ r = 2 \/ r = 3) by lia.
    destruct Hc as [-> | [-> | [-> | ->]]]; reflexivity. }
  rewrite !Hoff in Heq by lia. cbn [js_add] in Heq.
  apply (f_equal (fun r => io (snd r))) in Heq. cbn [snd log io] in Heq.
  apply app_inv_head in Heq.
  apply transfer_events_byte in Heq.
  assert (Hr : row = 0 \/ row = 1 \/ row = 2 \/ row = 3) by lia.
  assert (Hr' : row' = 0 \/ row' = 1 \/ row' = 2 \/ row' = 3) by lia.
  revert Hcol Hcol'.
  destruct (Z.leb_spec rows 2); intros Hcol Hcol';
    destruct Hr as [-> | [-> | [-> | ->]]];
    destruct Hr' as [-> | [-> | [-> | ->]]];
    try lia;
    change (nth (Z.to_nat 0) ROWOFFSETS 0) with 0x00 in Heq;
    change (nth (Z.to_nat 1) ROWOFFSETS 0) with 0x40 in Heq;
    change (nth (Z.to_nat 2) ROWOFFSETS 0) with 0x14 in Heq;
    change (nth (Z.to_nat 3) ROWOFFSETS 0) with 0x54 in Heq;
    rewrite !cursor_byte_small in Heq by lia; lia.
Qed.

(** ** The column count is never read *)

Lemma same_but_columns_refl (o : object) : same_but_columns o o.
Proof. repeat split. Qed.

Lemma ic_ret {A : Type} (a : A) : ignores_columns (ret a).
Proof. intros st st' Hs Hio. cbn. auto. Qed.

Lemma ic_throw {A : Type} (e : error) : ignores_columns (@throw A e).
Proof. intros st st' Hs Hio. cbn. auto. Qed.

Lemma ic_write (p : pin) (level : Z) : ignores_columns (rpio_write p level).
Proof. intros st st' Hs Hio. cbn. rewrite Hio. auto. Qed.

Lemma ic_usleep (us : Z) : ignores_columns (rpio_usleep us).
Proof. intros st st' Hs Hio. cbn. rewrite Hio. auto. Qed.

Lemma ic_open (p : pin) (mode init : Z) :
  ignores_columns (rpio_open p mode init).
Proof.
  intros st st' Hs Hio. unfold rpio_open.
  destruct (open_ok p); cbn; rewrite ?Hio; auto.
Qed.

Lemma ic_bind {A B : Type} (c : M A) (k : A -> M B) :
  ignores_columns c -> (forall a, ignores_columns (k a)) ->
  ignores_columns (bind c k).
Proof.
  intros Hc Hk st st' Hs Hio. unfold bind.
  destruct (Hc st st' Hs Hio) as (Hr & Hio' & Hs').
  destruct (c st) as [[a|e] s1], (c st') as [[a'|e'] s1'];
    cbn [fst snd] in *; try discriminate.
  - injection Hr as <-. now apply Hk.
  - injection Hr as <-. split; [reflexivity | split; assumption].
Qed.

(** Reading a field other than the column count. *)
Lemma ic_field {A B : Type} (f : object -> A) (k : A -> M B) :
  (forall o o', same_but_columns o o' -> f o = f o') ->
  (forall a, ignores_columns (k a)) ->
  ignores_columns (bind (field f) k).
Proof.
  intros Hf Hk st st' Hs Hio. unfold bind, field.
  rewrite (Hf _ _ Hs). now apply Hk.
Qed.

Lemma ic_for_loop (body : Z -> M unit) (count : nat) :
  (forall i, ignores_columns (body i)) ->
  forall start, ignores_columns (for_loop start count body).
Proof.
  intros Hb. induction count as [|n IH]; intros start; cbn [for_loop].
  - apply ic_ret.
  - apply ic_bind; [apply Hb | intros _; apply IH].
Qed.

Lemma ic_forEach {A : Type} (f : A -> M unit) (arr : list A) :
  (forall x, ignores_columns (f x)) -> ignores_columns (forEach arr f).
Proof.
  intros Hf. induction arr as [|x rest IH]; cbn [forEach].
  - apply ic_ret.
  - apply ic_bind; [apply Hf | intros _; exact IH].
Qed.

Lemma ic_forEach_var {A V : Type} (f : A -> V -> M V) (arr : list A) :
  (forall x v, ignores_columns (f x v)) ->
  forall v, ignores_columns (forEach_var arr f v).
Proof.
  intros Hf. induction arr as [|x rest IH]; intros v; cbn [forEach_var].
  - apply ic_ret.
  - apply ic_bind; [apply Hf | exact IH].
Qed.

Lemma ic_pulseEnable : ignores_columns _pulseEnable.
Proof.
  unfold _pulseEnable.
  repeat first
    [ apply ic_field; [now intros o o' (_ & H & _) | intros ?]
    | apply ic_bind; [| intros ?]
    | apply ic_write
    | apply ic_usleep ].
Qed.

Lemma ic_data_loop (level : Z -> Z) :
  ignores_columns
    (for_loop 0 4 (fun i => p <- pinsData_at i ;; rpio_write p (level i))).
Proof.
  apply ic_for_loop. intros i. apply ic_bind; [| intros; apply ic_write].
  unfold pinsData_at. apply ic_field; [now intros o o' (_ & _ & H & _) |].
  intros [pins|]; [apply ic_ret | apply ic_throw].
Qed.

Lemma ic_write8Bits value rs ww iw :
  ignores_columns (_write8Bits value rs ww iw).
Proof.
  unfold _write8Bits.
  apply ic_bind; [apply ic_usleep | intros _].
  apply ic_bind.
  { destruct rs as [[|]|];
      (apply ic_field; [now intros o o' (H & _) | intros; apply ic_write]). }
  intros _. apply ic_bind; [apply ic_data_loop | intros _].
  apply ic_bind; [apply ic_pulseEnable | intros _].
  apply ic_bind.
  { destruct (truthy _); [apply ic_usleep | apply ic_ret]. }
  intros _. apply ic_bind; [apply ic_data_loop | intros _].
  apply ic_pulseEnable.
Qed.

Lemma ic_setCursor (col row : Z) : ignores_columns (setCursor col row).
Proof.
  unfold setCursor. apply ic_field; [now intros o o' (_ & _ & _ & H) |].
  intros rows. apply ic_write8Bits.
Qed.

Lemma ic_print (str : jsstring) : ignores_columns (print str).
Proof.
  unfold print. cbv zeta. apply ic_bind; [| intros; apply ic_ret].
  apply ic_forEach_var. intros char row. unfold print_char.
  destruct (string_eqb char newline); cbv zeta;
    (apply ic_bind; [| intros; apply ic_ret]).
  - apply ic_setCursor.
  - apply ic_write8Bits.
Qed.

(** The column count of the configuration is stored and never read: the
    constructor and the three operations return the same result and log the
    same calls whatever it is, and also when it is absent. *)
Theorem column_count_is_never_read (config : object) (columns : option Z)
    (str : jsstring) (col row : Z) (st : state) :
  let st' := mkState (set_lcdColumns columns (self st)) (io st) in
  (fst (constructor (set_lcdColumns columns config) st)
   = fst (constructor config st)
   /\ io (snd (constructor (set_lcdColumns columns config) st))
      = io (snd (constructor config st)))
  /\ (fst (clear st') = fst (clear st)
      /\ io (snd (clear st')) = io (snd (clear st)))
  /\ (fst (setCursor col row st') = fst (setCursor col row st)
      /\ io (snd (setCursor col row st')) = io (snd (setCursor col row st)))
  /\ (fst (print str st') = fst (print str st)
      /\ io (snd (print str st')) = io (snd (print str st))).
Proof.
  intros st'.
  assert (Hs : same_but_columns (self st') (self st)) by (repeat split).
  split; [| split; [| split]].
  - unfold constructor. rewrite !bind_assign. cbn [self io].
    rewrite !assigned.
    match goal with
    | |- fst (?c ?s1) = fst (?c ?s2) /\ _ =>
        assert (K : ignores_columns c)
    end.
    { apply ic_bind.
      { apply ic_field; [now intros o o' (H & _) | intros; apply ic_open]. }
      intros _. apply ic_bind.
      { apply ic_field; [now intros o o' (_ & H & _) | intros; apply ic_open]. }
      intros _. apply ic_bind.
      { apply ic_field; [now intros o o' (_ & _ & H & _) |].
        intros [pins|]; [| apply ic_throw].
        apply ic_forEach. intros; apply ic_open. }
      intros _.
      repeat (apply ic_bind; [apply ic_write8Bits | intros _]).
      apply ic_write8Bits. }
    destruct (K (mkState (set_lcdColumns columns config) (io st))
                (mkState config (io st))) as (H1 & H2 & _);
      [repeat split | reflexivity | auto].
  - destruct (ic_write8Bits command.CLEARDISPLAY None None None st' st Hs
                eq_refl) as (H1 & H2 & _). split; assumption.
  - destruct (ic_setCursor col row st' st Hs eq_refl) as (H1 & H2 & _). split; assumption.
  - destruct (ic_print str st' st Hs eq_refl) as (H1 & H2 & _). split; assumption.
Qed.

(** ** [print]: consecutive calls, rows, time *)

Lemma Array_from_app (s1 s2 : jsstring) :
  forallb (fun c => negb (is_high_surrogate c)) s1 = true ->
  Array_from (s1 ++ s2) = map (fun c => [c]) s1 ++ Array_from s2.
Proof.
  induction s1 as [|c t IH]; intros H; [reflexivity |].
  cbn [forallb] in H. apply andb_true_iff in H as [Hc Ht].
  apply negb_true_iff in Hc.
  cbn [app map Array_from]. rewrite Hc. cbn [andb].
  rewrite <- (IH Ht). now destruct (t ++ s2).
Qed.

Lemma Array_from_plain (s1 : jsstring) :
  forallb (fun c => negb (is_high_surrogate c)) s1 = true ->
  Array_from s1 = map (fun c => [c]) s1.
Proof.
  intros H. rewrite <- (app_nil_r s1) at 1.
  rewrite (Array_from_app s1 [] H). apply app_nil_r.
Qed.

(** A stretch of text without newline leaves the row counter alone. *)
Lemma forEach_var_no_newline {B : Type} (s1 : jsstring) (k : Z -> M B) :
  forallb (fun c => negb (c =? 10)) s1 = true ->
  forall row st,
  bind (forEach_var (map (fun c => [c]) s1) print_char row) k st
  = bind (write_line (map (fun c => [c]) s1)) (fun _ => k row) st.
Proof.
  induction s1 as [|c t IH]; intros H row st; [reflexivity |].
  cbn [forallb] in H. apply andb_true_iff in H as [Hc Ht].
  apply negb_true_iff in Hc.
  cbn [map forEach_var]. unfold write_line. cbn [forEach].
  fold (write_line (map (fun c => [c]) t)).
  unfold print_char at 1. cbn [string_eqb newline]. rewrite Hc. cbn [andb].
  rewrite !bind_assoc. apply bind_ext. intros _ st'.
  rewrite bind_ret_l. apply (IH Ht).
Qed.

Lemma forallb_and {A : Type} (f g : A -> bool) (l : list A) :
  forallb (fun x => f x && g x) l = true ->
  forallb f l = true /\ forallb g l = true.
Proof.
  induction l as [|x l IH]; cbn [forallb]; [auto |].
  rewrite !andb_true_iff. intros [[Hf Hg] Hl].
  destruct (IH Hl). auto.
Qed.

(** Printing a text in two calls is printing it in one, provided the first
    part holds no newline (the row counter starts again at 0 in each call)
    and does not end inside a surrogate pair. *)
Theorem print_in_two_calls (s1 s2 : jsstring) (st : state) :
  forallb (fun c => negb (is_high_surrogate c) && negb (c =? 10)) s1 = true ->
  print (s1 ++ s2) st = (print s1 ;; print s2) st.
Proof.
  intros H. apply forallb_and in H as [Hsur Hnl].
  unfold print. cbv zeta.
  rewrite (Array_from_app s1 s2 Hsur), (Array_from_plain s1 Hsur).
  rewrite forEach_var_app_bind.
  rewrite (forEach_var_no_newline s1 _ Hnl).
  rewrite bind_assoc.
  rewrite (forEach_var_no_newline s1 _ Hnl).
  apply bind_ext. intros _ st'. reflexivity.
Qed.

(** A continuation that only sees states with the fields of [this]
    unchanged. *)
Lemma bind_ext_keeps {A B : Type} (c : M A) (k k' : A -> M B) st :
  keeps_self c ->
  (forall a st', self st' = self st -> k a st' = k' a st') ->
  bind c k st = bind c k' st.
Proof.
  intros Hc H. unfold bind. specialize (Hc st).
  destruct (c st) as [[a|e] st']; [apply H; exact Hc | reflexivity].
Qed.

Lemma keeps_write_line (line : list jsstring) : keeps_self (write_line line).
Proof.
  unfold write_line. apply keeps_forEach. intros; apply keeps_write8Bits.
Qed.

Lemma index_inside (r : Z) :
  0 <= r <= 3 ->
  ToNumber (index ROWOFFSETS (Int r)) = Int (nth (Z.to_nat r) ROWOFFSETS 0).
Proof.
  intros Hr. assert (Hc : r = 0 \/ r = 1 \/ r = 2 \/ r = 3) by lia.
  destruct Hc as [-> | [-> | [-> | ->]]]; reflexivity.
Qed.

(** At column 0 of a row from 1 on, on a display of one to four rows. *)
Lemma setCursor_line_start (row rows : Z) (st : state) :
  lcdRows (self st) = Some rows ->
  1 <= rows <= 4 ->
  1 <= row ->
  setCursor 0 row st
  = _write8Bits
      (js_or command.SETDDRAMADDR
         (nth (Z.to_nat (Z.min row (rows - 1))) ROWOFFSETS 0))
      (Some false) (Some 50) (Some 0) st.
Proof.
  intros Hrows Hr Hrow. rewrite setCursor_unfold, Hrows.
  assert (Hc : clamp_row (Some rows) row = Int (Z.min row (rows - 1))).
  { destruct (Z.le_gt_cases rows row).
    - rewrite Z.min_r by lia. now apply clamp_row_above.
    - rewrite Z.min_l by lia. apply clamp_row_below. lia. }
  rewrite Hc, index_inside by lia. reflexivity.
Qed.

Lemma print_next_lines_rows (rows : Z) (lines : list (list jsstring)) :
  forall (currentRow : Z) (st : state),
  lcdRows (self st) = Some rows ->
  1 <= rows <= 4 ->
  0 <= currentRow ->
  print_next_lines currentRow lines st = print_rows rows currentRow lines st.
Proof.
  induction lines as [|line rest IH]; intros currentRow st Hrows Hr Hcur;
    cbn [print_next_lines print_rows]; [reflexivity |].
  transitivity
    (bind (_write8Bits
             (js_or command.SETDDRAMADDR
                (nth (Z.to_nat (Z.min (currentRow + 1) (rows - 1)))
                     ROWOFFSETS 0))
             (Some false) (Some 50) (Some 0))
          (fun _ => write_line line ;;
                    print_next_lines (currentRow + 1) rest) st).
  { unfold bind at 1 3.
    now rewrite (setCursor_line_start (currentRow + 1) rows st Hrows Hr)
      by lia. }
  apply bind_ext_keeps; [apply keeps_write8Bits |].
  intros _ st1 H1.
  apply bind_ext_keeps; [apply keeps_write_line |].
  intros _ st2 H2. apply IH; [now rewrite H2, H1 | exact Hr | lia].
Qed.

(** On a display of one to four rows, every line of the text after the
    first is preceded by the instruction 0x80 | ROWOFFSETS[min k (rows - 1)],
    [k] being the number of the line: it is written from column 0 of its
    row, and the lines that do not fit are all written from column 0 of the
    last row, over one another. *)
Theorem print_overwrites_last_row (str : jsstring) (rows : Z) (st : state) :
  lcdRows (self st) = Some rows ->
  1 <= rows <= 4 ->
  print str st
  = match split_lines (Array_from str) with
    | [] => ret tt st
    | line :: lines => (write_line line ;; print_rows rows 0 lines) st
    end.
Proof.
  intros Hrows Hr. unfold print. cbv zeta. rewrite print_loop_lines.
  destruct (split_lines (Array_from str)) as [|line lines]; [reflexivity |].
  apply bind_ext_keeps; [apply keeps_write_line |].
  intros _ st1 H1. apply print_next_lines_rows; [now rewrite H1 | exact Hr | lia].
Qed.

Lemma sleep_total_app (a b : list event) :
  sleep_total (a ++ b) = sleep_total a + sleep_total b.
Proof.
  induction a as [|e a IH]; [reflexivity |].
  change (sleep_total ((e :: a) ++ b))
    with (match e with
          | EUsleep us => us + sleep_total (a ++ b)
          | _ => sleep_total (a ++ b)
          end).
  change (sleep_total (e :: a))
    with (match e with
          | EUsleep us => us + sleep_total a
          | _ => sleep_total a
          end).
  rewrite IH. destruct e; lia.
Qed.

Lemma write_count_app (a b : list event) :
  write_count (a ++ b) = (write_count a + write_count b)%nat.
Proof.
  unfold write_count. now rewrite filter_app, length_app.
Qed.

Lemma transfer_totals o pins value rs settle extra :
  sleep_total (transfer_events o pins value rs settle extra)
  = settle + extra + 6
  /\ write_count (transfer_events o pins value rs settle extra) = 15%nat.
Proof.
  unfold transfer_events, inter_nibble_events.
  rewrite !sleep_total_app, !write_count_app.
  destruct (extra =? 0) eqn:He; [apply Z.eqb_eq in He |];
    cbn [sleep_total write_count fold_right filter is_write length app map
         nibble_events pulse_events];
    split; lia.
Qed.

Lemma Array_from_length (str : jsstring) :
  (length (Array_from str) <= length str)%nat.
Proof.
  assert (H : forall n (s : jsstring), (length s <= n)%nat ->
                (length (Array_from s) <= length s)%nat).
  { induction n as [|n IH]; intros [|c [|d t]] Hn;
      try (cbn [Array_from length] in *; lia).
    change (Array_from (c :: d :: t))
      with (if is_high_surrogate c && is_low_surrogate d
            then [c; d] :: Array_from t
            else [c] :: Array_from (d :: t)).
    pose proof (IH t) as IH1. pose proof (IH (d :: t)) as IH2.
    destruct (is_high_surrogate c && is_low_surrogate d);
      cbn [length] in *; lia. }
  apply (H (length str)). lia.
Qed.

Lemma print_loop_totals (pins : list pin) (chars : list jsstring) :
  forall (row : Z) (st : state),
  pinsData (self st) = Some pins ->
  exists row' evs,
    forEach_var chars print_char row st = (Ok row', log evs st)
    /\ sleep_total evs = 56 * Z.of_nat (length chars)
    /\ write_count evs = (15 * length chars)%nat.
Proof.
  induction chars as [|c rest IH]; intros row st Hp; cbn [forEach_var].
  - exists row, []. rewrite log_nil. repeat split.
  - pose proof (print_char_run c row pins st Hp) as Hc.
    destruct (string_eqb c newline);
      match type of Hc with
      | _ = (Ok ?r, log ?evs st) =>
          rewrite (bind_ok _ _ _ _ _ Hc);
          destruct (IH r (log evs st) Hp) as (row' & evs' & Hrun & Hs & Hw);
          exists row', (evs ++ evs')
      end;
      rewrite Hrun, log_log, sleep_total_app, write_count_app, Hs, Hw;
      match goal with
      | |- context [transfer_events ?o ?p ?v ?r ?w ?e] =>
          destruct (transfer_totals o p v r w e) as [-> ->]
      end;
      cbn [length]; repeat split; lia.
Qed.

(** ** Time and writes *)

(** A transfer sleeps for its settle delay, its inter-nibble delay and six
    microseconds of enable pulses, and makes fifteen digital writes. *)
Theorem write8Bits_time (value : number) (rs : option bool)
    (ww iw : option Z) (pins : list pin) (st : state) :
  pinsData (self st) = Some pins ->
  exists evs,
    _write8Bits value rs ww iw st = (Ok tt, log evs st)
    /\ sleep_total evs
       = match ww with Some w => w | None => 50 end
         + match iw with Some w => w | None => 0 end + 6
    /\ write_count evs = 15%nat.
Proof.
  intros Hp. eexists. split; [apply (write8Bits_run _ _ _ _ pins st Hp) |].
  apply transfer_totals.
Qed.

(** [clear] and [setCursor] sleep 56 microseconds in all, and [print] 56
    microseconds and fifteen writes for every element of [Array.from(str)],
    newlines included; there are at most as many elements as code units. *)
Theorem operation_times (str : jsstring) (col row : Z) (pins : list pin)
    (st : state) :
  pinsData (self st) = Some pins ->
  (exists evs, clear st = (Ok tt, log evs st) /\ sleep_total evs = 56)
  /\ (exists evs, setCursor col row st = (Ok tt, log evs st)
                  /\ sleep_total evs = 56)
  /\ (exists evs,
        print str st = (Ok tt, log evs st)
        /\ sleep_total evs = 56 * Z.of_nat (length (Array_from str))
        /\ write_count evs = (15 * length (Array_from str))%nat
        /\ (length (Array_from str) <= length str)%nat).
Proof.
  intros Hp. split; [| split].
  - eexists. split; [apply (clear_run pins st Hp) |].
    now destruct (transfer_totals (self st) pins command.CLEARDISPLAY
                    false 50 0) as [-> _].
  - eexists. split; [apply (setCursor_run col row pins st Hp) |].
    match goal with
    | |- context [transfer_events ?o ?p ?v ?r ?w ?e] =>
        now destruct (transfer_totals o p v r w e) as [-> _]
    end.
  - destruct (print_loop_totals pins (Array_from str) 0 st Hp)
      as (row' & evs & Hrun & Hs & Hw).
    exists evs. unfold print. cbv zeta. rewrite (bind_ok _ _ _ _ _ Hrun).
    repeat split; try assumption. apply Array_from_length.
Qed.

Lemma opens_totals (pins : list pin) :
  sleep_total (map (fun p => EOpen p OUTPUT LOW) pins) = 0
  /\ write_count (map (fun p => EOpen p OUTPUT LOW) pins) = 0%nat.
Proof.
  induction pins as [|p pins [IHs IHw]]; [split; reflexivity |].
  split; [exact IHs | exact IHw].
Qed.

(** A successful construction sleeps 4438 microseconds in all (4107 and 107
    for the two reset writes, 56 for each of the four instructions) and makes
    ninety digital writes. *)
Theorem constructor_time (config : object) (pins : list pin) (st : state) :
  pinsData config = Some pins ->
  opens_ok config pins = true ->
  exists evs,
    constructor config st = (Ok tt, mkState config (io st ++ evs))
    /\ sleep_total evs = 4438
    /\ write_count evs = 90%nat.
Proof.
  intros Hp Hok. eexists. split; [apply (constructor_ok _ pins st Hp Hok) |].
  unfold setup_events, init_events, init_transfers.
  cbn [map concat events_of].
  change (EOpen (pinRs config) OUTPUT LOW
          :: EOpen (pinEnable config) OUTPUT LOW
          :: map (fun p => EOpen p OUTPUT LOW) pins)
    with ([EOpen (pinRs config) OUTPUT LOW;
           EOpen (pinEnable config) OUTPUT LOW]
          ++ map (fun p => EOpen p OUTPUT LOW) pins).
  rewrite !sleep_total_app, !write_count_app.
  destruct (opens_totals pins) as [-> ->].
  repeat match goal with
         | |- context [sleep_total (transfer_events ?o ?p ?v ?r ?w ?e)] =>
             destruct (transfer_totals o p v r w e) as [-> ->]
         end.
  cbn. split; reflexivity.
Qed.

(** ** What the display receives *)

Lemma pin_eqb_refl (p : pin) : pin_eqb p p = true.
Proof. destruct p as [z|]; [apply Z.eqb_refl | reflexivity]. Qed.

Lemma pin_eqb_sym (p q : pin) : pin_eqb p q = pin_eqb q p.
Proof. destruct p, q; cbn; [apply Z.eqb_sym | reflexivity ..]. Qed.

Lemma bus_run_cons o e tr b :
  bus_run o (e :: tr) b = bus_run o tr (bus_step o b e).
Proof. reflexivity. Qed.

Lemma bus_run_app o a tr b :
  bus_run o (a ++ tr) b = bus_run o tr (bus_run o a b).
Proof. apply fold_left_app. Qed.

Lemma is_high_bit (value : number) (k : Z) :
  Z.b2z (is_high (bit_of value k)) = bit_of value k.
Proof.
  destruct value as [|z]; [reflexivity |]. cbn [bit_of].
  now destruct (Z.testbit z k).
Qed.

Lemma byte_nibbles (x : Z) :
  0 <= x < 256 ->
  Z.b2z (Z.testbit x 4) + 2 * Z.b2z (Z.testbit x 5)
  + 4 * Z.b2z (Z.testbit x 6) + 8 * Z.b2z (Z.testbit x 7) = x / 16
  /\ Z.b2z (Z.testbit x 0) + 2 * Z.b2z (Z.testbit x 1)
     + 4 * Z.b2z (Z.testbit x 2) + 8 * Z.b2z (Z.testbit x 3) = x mod 16.
Proof.
  intros Hx.
  assert (Hall : forallb
            (fun y : Z =>
               (Z.b2z (Z.testbit y 4) + 2 * Z.b2z (Z.testbit y 5)
                + 4 * Z.b2z (Z.testbit y 6) + 8 * Z.b2z (Z.testbit y 7)
                =? y / 16)
               && (Z.b2z (Z.testbit y 0) + 2 * Z.b2z (Z.testbit y 1)
                   + 4 * Z.b2z (Z.testbit y 2) + 8 * Z.b2z (Z.testbit y 3)
                   =? y mod 16))
            (zrange 0 256) = true) by (vm_compute; reflexivity).
  rewrite forallb_forall in Hall.
  specialize (Hall x (In_zrange 256 0 x ltac:(lia))).
  apply andb_true_iff in Hall as [H1 H2].
  split; now apply Z.eqb_eq.
Qed.

Lemma nibble_values (value : number) :
  bit_of value 4 + 2 * bit_of value 5 + 4 * bit_of value 6
  + 8 * bit_of value 7 = low8 value / 16
  /\ bit_of value 0 + 2 * bit_of value 1 + 4 * bit_of value 2
     + 8 * bit_of value 3 = low8 value mod 16.
Proof.
  rewrite <- !(bit_of_low8 value) by lia. cbn [bit_of].
  apply byte_nibbles.
  destruct value as [|z]; cbn [low8]; [lia |].
  apply Z.mod_pos_bound. lia.
Qed.

(** One transfer, seen from the display: with the six lines on distinct
    pins and the enable line low, the two falling edges latch the high and
    then the low nibble of the byte, in the register that was asked for. *)
Lemma transfer_bus o pins value rs w e b :
  pinsData o = Some pins ->
  distinct (wires o) = true ->
  LOW = 0 -> HIGH = 1 ->
  is_high (en_line b) = false ->
  bus_run o (transfer_events o pins value rs w e) b
  = mkBus (if rs then 1 else 0) 0
          (bit_of value 0) (bit_of value 1) (bit_of value 2) (bit_of value 3)
          (latched b ++ nibbles_of value rs).
Proof.
  intros Hp Hd HL HH Hen.
  assert (D : forall i, array_get pins i = data_pin o i)
    by (intros i; unfold data_pin; now rewrite Hp).
  unfold transfer_events, nibble_events, pulse_events, inter_nibble_events.
  cbn [map app]. rewrite HL, HH, !D. clear D.
  unfold wires in Hd. cbn [distinct existsb] in Hd.
  rewrite !andb_true_iff, !negb_true_iff, !orb_false_iff in Hd.
  destruct Hd as ((R1 & R2 & R3 & R4 & R5 & _) & (E2 & E3 & E4 & E5 & _)
                  & (A3 & A4 & A5 & _) & (B4 & B5 & _) & (C5 & _) & _).
  pose proof (pin_eqb_sym (pinRs o) (pinEnable o)) as R1'.
  pose proof (pin_eqb_sym (pinRs o) (data_pin o 0)) as R2'.
  pose proof (pin_eqb_sym (pinRs o) (data_pin o 1)) as R3'.
  pose proof (pin_eqb_sym (pinRs o) (data_pin o 2)) as R4'.
  pose proof (pin_eqb_sym (pinRs o) (data_pin o 3)) as R5'.
  pose proof (pin_eqb_sym (pinEnable o) (data_pin o 0)) as E2'.
  pose proof (pin_eqb_sym (pinEnable o) (data_pin o 1)) as E3'.
  pose proof (pin_eqb_sym (pinEnable o) (data_pin o 2)) as E4'.
  pose proof (pin_eqb_sym (pinEnable o) (data_pin o 3)) as E5'.
  pose proof (pin_eqb_sym (data_pin o 0) (data_pin o 1)) as A3'.
  pose proof (pin_eqb_sym (data_pin o 0) (data_pin o 2)) as A4'.
  pose proof (pin_eqb_sym (data_pin o 0) (data_pin o 3)) as A5'.
  pose proof (pin_eqb_sym (data_pin o 1) (data_pin o 2)) as B4'.
  pose proof (pin_eqb_sym (data_pin o 1) (data_pin o 3)) as B5'.
  pose proof (pin_eqb_sym (data_pin o 2) (data_pin o 3)) as C5'.
  rewrite R1 in R1'. rewrite R2 in R2'. rewrite R3 in R3'.
  rewrite R4 in R4'. rewrite R5 in R5'. rewrite E2 in E2'.
  rewrite E3 in E3'. rewrite E4 in E4'. rewrite E5 in E5'.
  rewrite A3 in A3'. rewrite A4 in A4'. rewrite A5 in A5'.
  rewrite B4 in B4'. rewrite B5 in B5'. rewrite C5 in C5'.
  symmetry in R1', R2', R3', R4', R5', E2', E3', E4', E5',
    A3', A4', A5', B4', B5', C5'.
  destruct b as [r en d4 d5 d6 d7 l]. cbn [en_line latched] in *.
  assert (H0 : is_high 0 = false) by reflexivity.
  assert (H1 : is_high 1 = true) by reflexivity.
  destruct rs, (e =? 0); cbn [app];
    repeat (rewrite bus_run_cons;
            cbv beta iota zeta delta
              [bus_step bus_write bus_drive bus_latch wire rs_line en_line d4_line
               d5_line d6_line d7_line latched];
            rewrite ?pin_eqb_refl, ?R1, ?R2, ?R3, ?R4, ?R5, ?E2, ?E3, ?E4,
              ?E5, ?A3, ?A4, ?A5, ?B4, ?B5, ?C5, ?R1', ?R2', ?R3', ?R4',
              ?R5', ?E2', ?E3', ?E4', ?E5', ?A3', ?A4', ?A5', ?B4', ?B5',
              ?C5', ?Hen, ?H0, ?H1;
            cbv beta iota delta [andb negb]).
  all: unfold bus_run, bus_nibble, nibbles_of;
    cbv beta iota delta [fold_left d4_line d5_line d6_line d7_line];
    rewrite !is_high_bit;
    change (4 + 0) with 4; change (4 + 1) with 5; change (4 + 2) with 6;
    change (4 + 3) with 7; change (0 + 0) with 0; change (0 + 1) with 1;
    change (0 + 2) with 2; change (0 + 3) with 3;
    destruct (nibble_values value) as [-> ->];
    now rewrite <- app_assoc.
Qed.

Lemma bytes_of_nibbles (value : number) (rs : bool) :
  bytes_of (nibbles_of value rs) = [(rs, low8 value)].
Proof.
  unfold nibbles_of. cbn [bytes_of]. do 2 f_equal.
  pose proof (Z.div_mod (low8 value) 16). lia.
Qed.

Lemma bytes_of_transfers (values : list (number * bool)) :
  bytes_of (flat_map (fun t => nibbles_of (fst t) (snd t)) values)
  = map (fun t => (snd t, low8 (fst t))) values.
Proof.
  induction values as [|[v rs] rest IH]; [reflexivity |].
  cbn [flat_map map fst snd]. unfold nibbles_of at 1. cbn [app bytes_of].
  rewrite IH. do 2 f_equal.
  pose proof (Z.div_mod (low8 v) 16). lia.
Qed.

Lemma opens_bus o (pins : list pin) :
  LOW = 0 ->
  forall b,
  is_high (en_line b) = false ->
  latched (bus_run o (map (fun p => EOpen p OUTPUT LOW) pins) b) = latched b
  /\ is_high (en_line (bus_run o (map (fun p => EOpen p OUTPUT LOW) pins) b))
     = false.
Proof.
  intros HL. induction pins as [|p pins IH]; intros b Hen; [now split |].
  cbn [map]. rewrite bus_run_cons.
  assert (Hstep : latched (bus_step o b (EOpen p OUTPUT LOW)) = latched b
                  /\ is_high (en_line (bus_step o b (EOpen p OUTPUT LOW)))
                     = false).
  { cbn [bus_step]. unfold bus_write. rewrite Hen. cbn [andb].
    unfold bus_drive, wire. cbn [latched en_line]. rewrite HL.
    split; [reflexivity |]. now destruct (pin_eqb p (pinEnable o)). }
  destruct Hstep as [Hl He]. destruct (IH _ He) as [IHl IHe].
  split; [now rewrite IHl | exact IHe].
Qed.

(** The display receives the two nibbles of every transfer, high nibble
    first, in the register that was selected; together they are the value
    modulo 256, and the enable line is low again afterwards.  This needs the
    six lines on six different pins, 0 and 1 as the low and high levels and
    an enable line that is low before the transfer. *)
Theorem transfer_is_received (value : number) (rs : option bool)
    (ww iw : option Z) (pins : list pin) (st : state) (b0 : bus) :
  pinsData (self st) = Some pins ->
  distinct (wires (self st)) = true ->
  LOW = 0 -> HIGH = 1 ->
  is_high (en_line (bus_run (self st) (io st) b0)) = false ->
  let register := match rs with Some b => b | None => false end in
  exists st',
    _write8Bits value rs ww iw st = (Ok tt, st')
    /\ latched (bus_run (self st) (io st') b0)
       = latched (bus_run (self st) (io st) b0) ++ nibbles_of value register
    /\ bytes_of (nibbles_of value register) = [(register, low8 value)]
    /\ is_high (en_line (bus_run (self st) (io st') b0)) = false.
Proof.
  intros Hp Hd HL HH Hen register. eexists.
  split; [apply (write8Bits_run _ _ _ _ pins st Hp) |].
  cbn [log io]. rewrite bus_run_app.
  rewrite (transfer_bus _ pins _ _ _ _ _ Hp Hd HL HH Hen).
  cbn [latched en_line]. repeat split. apply bytes_of_nibbles.
Qed.

Lemma print_loop_bus (pins : list pin) (chars : list jsstring) :
  forall (row : Z) (st : state),
  pinsData (self st) = Some pins ->
  distinct (wires (self st)) = true ->
  LOW = 0 -> HIGH = 1 ->
  exists row' evs,
    forEach_var chars print_char row st = (Ok row', log evs st)
    /\ forall b,
         is_high (en_line b) = false ->
         latched (bus_run (self st) evs b)
         = latched b
           ++ flat_map (fun t => nibbles_of (fst t) (snd t))
                (print_values (lcdRows (self st)) chars row)
         /\ is_high (en_line (bus_run (self st) evs b)) = false.
Proof.
  induction chars as [|c rest IH]; intros row st Hp Hd HL HH;
    cbn [forEach_var print_values].
  - exists row, []. rewrite log_nil. split; [reflexivity |].
    intros b Hen. cbn. now rewrite app_nil_r.
  - pose proof (print_char_run c row pins st Hp) as Hc.
    destruct (string_eqb c newline);
      match type of Hc with
      | _ = (Ok ?r, log (transfer_events ?o ?p ?v ?g ?w ?e) st) =>
          rewrite (bind_ok _ _ _ _ _ Hc);
          destruct (IH r (log (transfer_events o p v g w e) st) Hp Hd HL HH)
            as (row' & evs' & Hrun & Hbus);
          exists row', (transfer_events o p v g w e ++ evs');
          rewrite Hrun, log_log; split; [reflexivity |];
          intros b Hen; rewrite bus_run_app;
          rewrite (transfer_bus o p v g w e b Hp Hd HL HH Hen);
          match goal with
          | |- context [bus_run _ evs' ?b1] =>
              destruct (Hbus b1 eq_refl) as [Hl He]
          end;
          cbn [self log] in Hl, He; rewrite Hl; cbn [latched flat_map fst snd];
          split; [now rewrite <- app_assoc | exact He]
      end.
Qed.

(** The display receives [print]'s text byte for byte: for every element of
    [Array.from(str)] in turn, the low byte of the character code in the
    data register, or, for a newline, the cursor instruction of the next row
    in the instruction register. *)
Theorem print_is_received (str : jsstring) (pins : list pin) (st : state)
    (b0 : bus) :
  pinsData (self st) = Some pins ->
  distinct (wires (self st)) = true ->
  LOW = 0 -> HIGH = 1 ->
  is_high (en_line (bus_run (self st) (io st) b0)) = false ->
  exists st' nibbles,
    print str st = (Ok tt, st')
    /\ latched (bus_run (self st) (io st') b0)
       = latched (bus_run (self st) (io st) b0) ++ nibbles
    /\ bytes_of nibbles
       = map (fun t => (snd t, low8 (fst t)))
             (print_values (lcdRows (self st)) (Array_from str) 0)
    /\ is_high (en_line (bus_run (self st) (io st') b0)) = false.
Proof.
  intros Hp Hd HL HH Hen.
  destruct (print_loop_bus pins (Array_from str) 0 st Hp Hd HL HH)
    as (row' & evs & Hrun & Hbus).
  destruct (Hbus _ Hen) as [Hl He].
  exists (log evs st). eexists. unfold print. cbv zeta.
  rewrite (bind_ok _ _ _ _ _ Hrun). split; [reflexivity |].
  cbn [log io]. rewrite bus_run_app. split; [exact Hl |].
  split; [apply bytes_of_transfers | exact He].
Qed.

(** The display receives the reset sequence as the nibbles 3, 3, 3, 2 and
    then the display-control, function-set, entry-mode and clear
    instructions as 0x0C, 0x28, 0x06 and 0x01, all in the instruction
    register; opening the pins latches nothing when the enable line was not
    high before. *)
Theorem constructor_is_received (config : object) (pins : list pin)
    (st : state) (b0 : bus) :
  pinsData config = Some pins ->
  opens_ok config pins = true ->
  distinct (wires config) = true ->
  LOW = 0 -> HIGH = 1 ->
  is_high (en_line (bus_run config (io st) b0)) = false ->
  exists st',
    constructor config st = (Ok tt, st')
    /\ latched (bus_run config (io st') b0)
       = latched (bus_run config (io st) b0)
         ++ [(false, 3); (false, 3); (false, 3); (false, 2);
             (false, 0); (false, 12); (false, 2); (false, 8);
             (false, 0); (false, 6); (false, 0); (false, 1)]
    /\ is_high (en_line (bus_run config (io st') b0)) = false.
Proof.
  intros Hp Hok Hd HL HH Hen. eexists.
  split; [apply (constructor_ok config pins st Hp Hok) |].
  cbn [io]. rewrite bus_run_app.
  set (b := bus_run config (io st) b0) in *.
  unfold setup_events.
  change (EOpen (pinRs config) OUTPUT LOW
          :: EOpen (pinEnable config) OUTPUT LOW
          :: map (fun p => EOpen p OUTPUT LOW) pins)
    with (map (fun p => EOpen p OUTPUT LOW)
              (pinRs config :: pinEnable config :: pins)).
  rewrite bus_run_app.
  destruct (opens_bus config (pinRs config :: pinEnable config :: pins) HL b
              Hen) as [Hl He].
  set (b1 := bus_run config _ b) in *.
  unfold init_events, init_transfers. cbn [map concat events_of].
  rewrite !bus_run_app.
  rewrite (transfer_bus _ pins _ _ _ _ b1 Hp Hd HL HH He).
  repeat match goal with
         | |- context [bus_run config (transfer_events config pins ?v ?g ?w ?e)
                         (mkBus ?r ?n ?d4 ?d5 ?d6 ?d7 ?l)] =>
             rewrite (transfer_bus config pins v g w e
                        (mkBus r n d4 d5 d6 d7 l) Hp Hd HL HH eq_refl)
         end.
  cbn [bus_run fold_left latched en_line]. rewrite Hl.
  split; [| reflexivity].
  rewrite <- !app_assoc. reflexivity.
Qed.

End Properties.

(** * Examples on the board of the README *)

#[local] Existing Instance board.

(** The letter A (0x41) in data mode: high nibble 0100, low nibble 0001. *)
Lemma write8Bits_two_nibbles_witness :
  pinsData (self ready) = Some readme_pins
  /\ _write8Bits 0x41 (Some true) None None ready
     = (Ok tt,
        mkState readme_config
          [EUsleep 50; EWrite (Some 18) 1;
           EWrite (Some 11) 0; EWrite (Some 12) 0;
           EWrite (Some 15) 1; EWrite (Some 16) 0;
           EWrite (Some 22) 0; EUsleep 1; EWrite (Some 22) 1; EUsleep 1;
           EWrite (Some 22) 0; EUsleep 1;
           EWrite (Some 11) 1; EWrite (Some 12) 0;
           EWrite (Some 15) 0; EWrite (Some 16) 0;
           EWrite (Some 22) 0; EUsleep 1; EWrite (Some 22) 1; EUsleep 1;
           EWrite (Some 22) 0; EUsleep 1]).
Proof.
  split; [reflexivity |].
  exact (write8Bits_two_nibbles (rpio := board) 0x41 (Some true) None None readme_pins ready
           eq_refl).
Defined.

(** On the two-row display, row 5 is row 1, and row -1 reads no offset. *)
Lemma setCursor_clamps_high_rows_only_witness :
  lcdRows (self ready) = Some 2
  /\ 2 <= 5 /\ exact_column 3 /\ -1 < 0 /\ 0 <= 2
  /\ setCursor 3 5 ready = setCursor 3 1 ready
  /\ setCursor 3 5 ready
     = _write8Bits 0xC3 (Some false) (Some 50) (Some 0) ready
  /\ setCursor 3 (-1) ready
     = _write8Bits 0x80 (Some false) (Some 50) (Some 0) ready.
Proof.
  assert (H1 : 2 <= 5) by lia.
  assert (H2 : 0 <= 2) by lia.
  assert (H3 : -1 < 0) by lia.
  assert (H4 : exact_column 3) by (unfold exact_column; cbn; lia).
  destruct (setCursor_clamps_high_rows_only (rpio := board) 3 5 (-1) 2 ready
              eq_refl) as [Hhigh Hlow].
  destruct (Hhigh H1) as (_ & Hsame & Hsent).
  destruct (Hlow H3 H2) as (_ & _ & Hneg).
  exact (conj eq_refl (conj H1 (conj H4 (conj H3 (conj H2
           (conj Hsame (conj (Hsent H4) Hneg))))))).
Defined.

(** Column 3 of row 1 is address 0x43, sent as 0xC3. *)
Lemma setCursor_address_witness :
  lcdRows (self ready) = Some 2
  /\ exact_column 3
  /\ 0 <= Z.min 1 (2 - 1) <= 3
  /\ setCursor 3 1 ready
     = _write8Bits 0xC3 (Some false) (Some 50) (Some 0) ready.
Proof.
  assert (H : 0 <= Z.min 1 (2 - 1) <= 3) by (cbn; lia).
  assert (H4 : exact_column 3) by (unfold exact_column; cbn; lia).
  destruct (setCursor_address (rpio := board) 3 1 2 ready eq_refl H4 H)
    as (_ & _ & _ & Hs).
  exact (conj eq_refl (conj H4 (conj H Hs))).
Defined.

Lemma constructor_sequence_witness :
  pinsData readme_config = Some readme_pins
  /\ opens_ok readme_config readme_pins = true
  /\ new readme_config
     = (Ok tt,
        mkState readme_config
          (setup_events readme_config readme_pins
           ++ transfer_events readme_config readme_pins 0x33 false 1 4100
           ++ transfer_events readme_config readme_pins 0x32 false 1 100
           ++ transfer_events readme_config readme_pins 0x0C false 50 0
           ++ transfer_events readme_config readme_pins 0x28 false 50 0
           ++ transfer_events readme_config readme_pins 0x06 false 50 0
           ++ transfer_events readme_config readme_pins 0x01 false 50 0)).
Proof.
  refine (conj eq_refl (conj eq_refl _)).
  exact (constructor_sequence (rpio := board) readme_config readme_pins fresh eq_refl eq_refl).
Defined.

Lemma write_delays_witness :
  pinsData readme_config = Some readme_pins
  /\ opens_ok readme_config readme_pins = true
  /\ pinsData (self ready) = Some readme_pins
  /\ string_eqb [65] newline = false
  /\ clear ready
     = (Ok tt,
        log (transfer_events readme_config readme_pins 0x01 false 50 0) ready)
  /\ print_char [65] 1 ready
     = (Ok 1,
        log (transfer_events readme_config readme_pins 65 true 50 0) ready).
Proof.
  destruct (write_delays (rpio := board) readme_config readme_pins fresh readme_pins ready
              0 1 [65] eq_refl eq_refl eq_refl eq_refl)
    as (_ & Hclear & _ & Hchar & _).
  exact (conj eq_refl (conj eq_refl (conj eq_refl (conj eq_refl
           (conj Hclear Hchar))))).
Defined.

Lemma constructor_aborts_on_open_failure_witness :
  open_ok (pinRs bad_pin_config) = false
  /\ exists e tr,
       new bad_pin_config = (Throw e, mkState bad_pin_config ([] ++ tr))
       /\ forall ev, In ev tr -> exists p mode init, ev = EOpen p mode init.
Proof.
  split; [reflexivity |].
  exact (constructor_aborts_on_open_failure (rpio := board) bad_pin_config fresh
           (or_introl eq_refl)).
Defined.

Lemma constructor_checks_nothing_itself_witness :
  pinsData readme_config = Some readme_pins
  /\ (4 <= length readme_pins)%nat
  /\ opens_ok readme_config readme_pins = true
  /\ new no_geometry_config
     = (Ok tt,
        mkState no_geometry_config
          (setup_events readme_config readme_pins
           ++ init_events readme_config readme_pins))
  /\ pinsData no_data_pins_config = None
  /\ exists e tr,
       new no_data_pins_config
       = (Throw e, mkState no_data_pins_config ([] ++ tr))
       /\ forallb is_open tr = true.
Proof.
  assert (H : (4 <= length readme_pins)%nat) by (cbn; lia).
  destruct (constructor_checks_nothing_itself (rpio := board) readme_config
              readme_pins (Some 0) (Some (-1)) fresh eq_refl H eq_refl)
    as [Hbuilt Hrejected].
  exact (conj eq_refl (conj H (conj eq_refl (conj Hbuilt (conj eq_refl
           (Hrejected no_data_pins_config (or_introl eq_refl))))))).
Defined.

(** Printing Hi: the second character is one data-mode transfer of 0x69. *)
Lemma print_sends_low_byte_witness :
  Array_from [72; 105] = [[72]] ++ [105] :: []
  /\ string_eqb [105] newline = false
  /\ pinsData (self ready) = Some readme_pins
  /\ exists row evs,
       forEach_var [[72]] print_char 0 ready = (Ok row, log evs ready)
       /\ print [72; 105] ready
          = (Ok tt,
             log (evs
                  ++ transfer_events readme_config readme_pins 0x69 true 50 0)
                 ready).
Proof.
  refine (conj eq_refl (conj eq_refl (conj eq_refl _))).
  destruct (print_sends_low_byte (rpio := board) [72; 105] [[72]] [] [105] readme_pins ready
              eq_refl eq_refl eq_refl) as (row & evs & Hpre & Hprint).
  exists row, evs. split; [exact Hpre | exact Hprint].
Defined.

(** ** Counting the transfers of the constructor *)

Lemma rising_edges_app (o : object) (a b : list event) :
  rising_edges o (a ++ b) = (rising_edges o a + rising_edges o b)%nat.
Proof.
  unfold rising_edges. now rewrite filter_app, length_app.
Qed.

(** Each transfer raises the enable line twice. *)
Lemma readme_transfer_edges (t : transfer) :
  rising_edges readme_config (events_of readme_config readme_pins t) = 2%nat.
Proof.
  destruct t as [[[value rs] settle] extra].
  unfold events_of, transfer_events, inter_nibble_events.
  rewrite !rising_edges_app.
  destruct (extra =? 0); reflexivity.
Qed.

Lemma readme_transfers_edges (ts : list transfer) :
  rising_edges readme_config
    (concat (map (events_of readme_config readme_pins) ts))
  = (2 * length ts)%nat.
Proof.
  induction ts as [|t ts IH]; [reflexivity |].
  cbn [map concat length].
  rewrite rising_edges_app, readme_transfer_edges, IH. lia.
Qed.

(** C2, as stated, fails on the configuration of the README: construction
    succeeds, and what it logs after the pin set-up is not a sequence of
    5 + 2 transfers (it raises the enable line 12 times, not 14). *)
Lemma constructor_seven_transfers_counterexample :
  fst (new readme_config) = Ok tt
  /\ ~ exists ts : list transfer,
         length ts = (5 + 2)%nat
         /\ io (snd (new readme_config))
            = setup_events readme_config readme_pins
              ++ concat (map (events_of readme_config readme_pins) ts).
Proof.
  unfold new.
  rewrite (constructor_ok (rpio := board) readme_config readme_pins
             (mkState empty_object []) eq_refl eq_refl).
  split; [reflexivity |].
  intros (ts & Hlen & Hio). cbn [snd io app] in Hio.
  apply app_inv_head in Hio.
  apply (f_equal (rising_edges readme_config)) in Hio.
  rewrite readme_transfers_edges, Hlen in Hio.
  vm_compute in Hio. discriminate.
Qed.

(** C7, as stated, fails: a configuration with zero columns and a negative
    row count, and one with five data pins, are both constructed, and the
    constructor writes to the display for both. *)
Lemma unchecked_configuration_counterexample :
  (fst (new no_geometry_config) = Ok tt
   /\ existsb is_write (io (snd (new no_geometry_config))) = true)
  /\ (fst (new five_pins_config) = Ok tt
      /\ existsb is_write (io (snd (new five_pins_config))) = true).
Proof.
  repeat split; vm_compute; reflexivity.
Qed.

(** ** Examples for the further properties *)

Lemma constructor_stops_at_first_bad_pin_witness :
  pinsData bad_data_pin_config = Some ([Some 11] ++ Some 99 :: [Some 15; Some 16])
  /\ open_ok (pinRs bad_data_pin_config) = true
  /\ open_ok (pinEnable bad_data_pin_config) = true
  /\ forallb open_ok [Some 11] = true
  /\ open_ok (Some 99) = false
  /\ new bad_data_pin_config
     = (Throw (GpioError (Some 99)),
        mkState bad_data_pin_config
          [EOpen (Some 18) 1 0; EOpen (Some 22) 1 0; EOpen (Some 11) 1 0]).
Proof.
  refine (conj eq_refl (conj eq_refl (conj eq_refl (conj eq_refl
            (conj eq_refl _))))).
  exact (constructor_stops_at_first_bad_pin (rpio := board)
           bad_data_pin_config [Some 11] [Some 15; Some 16] (Some 99) fresh
           eq_refl eq_refl eq_refl eq_refl eq_refl).
Defined.

Lemma constructor_without_data_pins_witness :
  pinsData no_data_pins_config = None
  /\ open_ok (pinRs no_data_pins_config) = true
  /\ open_ok (pinEnable no_data_pins_config) = true
  /\ new no_data_pins_config
     = (Throw TypeError,
        mkState no_data_pins_config
          [EOpen (Some 18) 1 0; EOpen (Some 22) 1 0]).
Proof.
  refine (conj eq_refl (conj eq_refl (conj eq_refl _))).
  exact (constructor_without_data_pins (rpio := board) no_data_pins_config
           fresh eq_refl eq_refl eq_refl).
Defined.

Lemma readme_constructed :
  constructor readme_config fresh = (Ok tt, snd (new readme_config)).
Proof. vm_compute. reflexivity. Defined.

Lemma constructed_instance_never_throws_witness :
  constructor readme_config fresh = (Ok tt, snd (new readme_config))
  /\ exists evs,
       print [72; 105] (snd (new readme_config))
       = (Ok tt, log evs (snd (new readme_config))).
Proof.
  split; [exact readme_constructed |].
  exact (proj2 (proj2 (proj2
           (constructed_instance_never_throws (rpio := board) readme_config
              fresh (snd (new readme_config)) [72; 105] 0 0
              readme_constructed)))).
Defined.

(** U+0141 is sent as the letter A. *)
Lemma write8Bits_low_byte_only_witness :
  0x141 mod 256 = 0x41 mod 256
  /\ _write8Bits 0x141 (Some true) None None ready
     = _write8Bits 0x41 (Some true) None None ready.
Proof.
  split; [reflexivity |].
  exact (write8Bits_low_byte_only (rpio := board) 0x141 0x41 (Some true)
           None None ready eq_refl).
Defined.

Lemma setCursor_outside_table_witness :
  (exists rows, lcdRows (self ready) = Some rows
                /\ ((0 <= rows /\ -1 < 0) \/ (5 <= rows /\ 4 <= -1)))
  /\ setCursor 7 (-1) ready
     = _write8Bits 0x80 (Some false) (Some 50) (Some 0) ready.
Proof.
  assert (H : exists rows, lcdRows (self ready) = Some rows
                /\ ((0 <= rows /\ -1 < 0) \/ (5 <= rows /\ 4 <= -1))).
  { exists 2. split; [reflexivity |]. left. split; lia. }
  split; [exact H |].
  exact (setCursor_outside_table (rpio := board) 7 (-1) ready (or_introl H)).
Defined.

Lemma setCursor_without_row_count_witness :
  lcdRows (self ready_no_rows) = None
  /\ exact_column 5
  /\ 0 <= 3 <= 3
  /\ setCursor 5 3 ready_no_rows
     = _write8Bits 0xD9 (Some false) (Some 50) (Some 0) ready_no_rows.
Proof.
  assert (H : 0 <= 3 <= 3) by lia.
  assert (H4 : exact_column 5) by (unfold exact_column; cbn; lia).
  refine (conj eq_refl (conj H4 (conj H _))).
  exact (setCursor_without_row_count (rpio := board) 5 3 ready_no_rows
           eq_refl H4 H).
Defined.

Lemma setCursor_column_mod_128_witness :
  exact_column 3
  /\ exact_column (3 + 128)
  /\ setCursor (3 + 128) 1 ready = setCursor 3 1 ready.
Proof.
  assert (H1 : exact_column 3) by (unfold exact_column; cbn; lia).
  assert (H2 : exact_column (3 + 128)) by (unfold exact_column; cbn; lia).
  exact (conj H1 (conj H2
           (setCursor_column_mod_128 (rpio := board) 3 1 ready H1 H2))).
Defined.


Lemma setCursor_distinct_cells_witness :
  pinsData (self ready_four_rows) = Some readme_pins
  /\ lcdRows (self ready_four_rows) = Some 4
  /\ 4 <= 4 /\ 0 <= 1 < 4 /\ 0 <= 3 < 20
  /\ setCursor 3 1 ready_four_rows = setCursor 3 1 ready_four_rows
  /\ 3 = 3 /\ 1 = 1.
Proof.
  assert (H1 : 4 <= 4) by lia.
  assert (H2 : 0 <= 1 < 4) by lia.
  assert (H3 : 0 <= 3 < 20) by lia.
  refine (conj eq_refl (conj eq_refl (conj H1 (conj H2 (conj H3
            (conj eq_refl _)))))).
  exact (setCursor_distinct_cells (rpio := board) 3 1 3 1 4 readme_pins
           ready_four_rows eq_refl eq_refl H1 H2 H2 H3 H3 eq_refl).
Defined.

(** Hi and an exclamation mark, in one call or in two. *)
Lemma print_in_two_calls_witness :
  forallb (fun c => negb (is_high_surrogate c) && negb (c =? 10)) [72; 105]
  = true
  /\ print ([72; 105] ++ [33; 10]) ready
     = (print [72; 105] ;; print [33; 10]) ready.
Proof.
  split; [reflexivity |].
  exact (print_in_two_calls (rpio := board) [72; 105] [33; 10] ready eq_refl).
Defined.

(** Three lines on the two-row display: the third goes to row 1 again. *)
Lemma print_overwrites_last_row_witness :
  lcdRows (self ready) = Some 2
  /\ 1 <= 2 <= 4
  /\ print [65; 10; 66; 10; 67] ready
     = match split_lines (Array_from [65; 10; 66; 10; 67]) with
       | [] => ret tt ready
       | line :: lines => (write_line line ;; print_rows 2 0 lines) ready
       end.
Proof.
  assert (H : 1 <= 2 <= 4) by lia.
  refine (conj eq_refl (conj H _)).
  exact (print_overwrites_last_row (rpio := board) [65; 10; 66; 10; 67] 2
           ready eq_refl H).
Defined.

Lemma write8Bits_time_witness :
  pinsData (self ready) = Some readme_pins
  /\ exists evs,
       _write8Bits 0x33 (Some false) (Some 1) (Some 4100) ready
       = (Ok tt, log evs ready)
       /\ sleep_total evs = 1 + 4100 + 6
       /\ write_count evs = 15%nat.
Proof.
  split; [reflexivity |].
  exact (write8Bits_time (rpio := board) 0x33 (Some false) (Some 1)
           (Some 4100) readme_pins ready eq_refl).
Defined.

Lemma operation_times_witness :
  pinsData (self ready) = Some readme_pins
  /\ exists evs, clear ready = (Ok tt, log evs ready) /\ sleep_total evs = 56.
Proof.
  split; [reflexivity |].
  exact (proj1 (operation_times (rpio := board) [72; 105] 0 0 readme_pins
                  ready eq_refl)).
Defined.

Lemma constructor_time_witness :
  pinsData readme_config = Some readme_pins
  /\ opens_ok readme_config readme_pins = true
  /\ exists evs,
       new readme_config = (Ok tt, mkState readme_config ([] ++ evs))
       /\ sleep_total evs = 4438
       /\ write_count evs = 90%nat.
Proof.
  refine (conj eq_refl (conj eq_refl _)).
  exact (constructor_time (rpio := board) readme_config readme_pins fresh
           eq_refl eq_refl).
Defined.

(** The letter A arrives as the nibbles 4 and 1 in the data register. *)
Lemma transfer_is_received_witness :
  pinsData (self ready) = Some readme_pins
  /\ distinct (wires (self ready)) = true
  /\ LOW = 0 /\ HIGH = 1
  /\ is_high (en_line (bus_run (self ready) (io ready) idle_bus)) = false
  /\ exists st',
       _write8Bits 0x41 (Some true) None None ready = (Ok tt, st')
       /\ latched (bus_run (self ready) (io st') idle_bus)
          = [] ++ [(true, 4); (true, 1)]
       /\ bytes_of [(true, 4); (true, 1)] = [(true, 0x41)]
       /\ is_high (en_line (bus_run (self ready) (io st') idle_bus)) = false.
Proof.
  refine (conj eq_refl (conj eq_refl (conj eq_refl (conj eq_refl
            (conj eq_refl _))))).
  exact (transfer_is_received (rpio := board) 0x41 (Some true) None None
           readme_pins ready idle_bus eq_refl eq_refl eq_refl eq_refl
           eq_refl).
Defined.

Lemma print_is_received_witness :
  pinsData (self ready) = Some readme_pins
  /\ distinct (wires (self ready)) = true
  /\ LOW = 0 /\ HIGH = 1
  /\ is_high (en_line (bus_run (self ready) (io ready) idle_bus)) = false
  /\ exists st' nibbles,
       print [72; 10; 105] ready = (Ok tt, st')
       /\ latched (bus_run (self ready) (io st') idle_bus) = [] ++ nibbles
       /\ bytes_of nibbles = [(true, 72); (false, 0xC0); (true, 105)]
       /\ is_high (en_line (bus_run (self ready) (io st') idle_bus)) = false.
Proof.
  refine (conj eq_refl (conj eq_refl (conj eq_refl (conj eq_refl
            (conj eq_refl _))))).
  exact (print_is_received (rpio := board) [72; 10; 105] readme_pins ready
           idle_bus eq_refl eq_refl eq_refl eq_refl eq_refl).
Defined.

Lemma constructor_is_received_witness :
  pinsData readme_config = Some readme_pins
  /\ opens_ok readme_config readme_pins = true
  /\ distinct (wires readme_config) = true
  /\ LOW = 0 /\ HIGH = 1
  /\ is_high (en_line (bus_run readme_config (io fresh) idle_bus)) = false
  /\ exists st',
       new readme_config = (Ok tt, st')
       /\ latched (bus_run readme_config (io st') idle_bus)
          = [] ++ [(false, 3); (false, 3); (false, 3); (false, 2);
                   (false, 0); (false, 12); (false, 2); (false, 8);
                   (false, 0); (false, 6); (false, 0); (false, 1)]
       /\ is_high (en_line (bus_run readme_config (io st') idle_bus)) = false.
Proof.
  refine (conj eq_refl (conj eq_refl (conj eq_refl (conj eq_refl
            (conj eq_refl (conj eq_refl _)))))).
  exact (constructor_is_received (rpio := board) readme_config readme_pins
           fresh idle_bus eq_refl eq_refl eq_refl eq_refl eq_refl eq_refl).
Defined.
